(** * Reverse proxy: registry, SNI parser, control plane and L7 forwarder

    A shallow embedding of the Go sources of the reverse proxy:
    - the L4 proxy (SNI peeking, [parseTLSClientHello], the backend registry
      with [addBackend], [removeBackend], [getNextBackend], and the
      [/register] handler);
    - the L7 proxy ([handleHTTPRequest] with its response cache and the
      [/register-backend] handler).

    Go values are modelled as follows.
    - [sync.Map] with string keys is a finite map [gmap string V]; its
      [Range] method visits every key once, in an order the runtime picks,
      so every use of [Range] takes that order as an argument.
    - [[]byte] is [list ascii] and a Go [string] is a Rocq [string] (both
      are byte sequences).
    - Go [int] is [Z].  Every integer the modelled code computes is
      non-negative and below [len(data) + 2^18] or below a pool size, far
      from the 64-bit limit, so no wrap-around is written out.
    - A call either returns a value, returns an error, or panics. *)

From Stdlib Require Import ZArith Ascii String List Permutation Lia.
From stdpp Require Import gmap strings list pretty.

(** ** Results of Go calls *)

Inductive Res (A : Type) : Type :=
| Ret (a : A)            (* normal return, [err == nil] *)
| Fail (err : string)    (* a non-nil [error], with its message *)
| Panic (msg : string)   (* run-time panic *)
| OutOfFuel.             (* the loop budget of the model ran out *)
Arguments Ret {A} a.
Arguments Fail {A} err.
Arguments Panic {A} msg.
Arguments OutOfFuel {A}.

Definition bind {A B} (r : Res A) (k : A → Res B) : Res B :=
  match r with
  | Ret a => k a
  | Fail e => Fail e
  | Panic m => Panic m
  | OutOfFuel => OutOfFuel
  end.

Declare Scope go_scope.
Delimit Scope go_scope with go.
Notation "x ←! e ;; k" := (bind e (λ x, k))
  (at level 100, e at next level, k at level 200, right associativity,
   format "'[v' x  ←!  e  ;;  '/' k ']'") : go_scope.

(** ** The registry *)

(** The fields of [Config] that the registry and the cache use.  [Backends]
    maps a selector to its pool, itself a [sync.Map] from backend to [true];
    [BackendIndices] holds the round-robin cursor of each selector. *)
Record Config : Type := mkConfig {
  Backends : gmap string (gmap string bool);
  BackendIndices : gmap string Z;
  Cache : gmap string string
}.

Definition emptyConfig : Config := mkConfig ∅ ∅ ∅.

(** The order in which one call of [Range] visits the keys of a pool. *)
Definition RangeOrder : Type := gmap string bool → list string.

(** What [sync.Map.Range] guarantees: every key is visited exactly once. *)
Definition range_valid (rng : RangeOrder) : Prop :=
  ∀ m, NoDup (rng m) ∧ ∀ k, k ∈ rng m ↔ is_Some (m !! k).

(** Two visiting orders: the order in which [map_to_list] lists a finite map
    (the order of the underlying trie, not the order of insertion), and its
    reverse. *)
Definition range_trie : RangeOrder := λ m, (map_to_list m).*1.
Definition range_trie_rev : RangeOrder := λ m, reverse ((map_to_list m).*1).

(** [addBackend]: [LoadOrStore(sni, &sync.Map{})], then [Store(backend, true)]
    on the pool found or created. *)
Definition addBackend (config : Config) (sni backend : string) : Config :=
  let backends := default ∅ (Backends config !! sni) in
  mkConfig (<[sni := <[backend := true]> backends]> (Backends config))
           (BackendIndices config) (Cache config).

(** [removeBackend]: [Load(sni)]; when present, [Delete(backend)] on the pool.
    Neither the selector entry nor the cursor is touched. *)
Definition removeBackend (config : Config) (sni backend : string) : Config :=
  match Backends config !! sni with
  | None => config
  | Some backends =>
      mkConfig (<[sni := delete backend backends]> (Backends config))
               (BackendIndices config) (Cache config)
  end.

(** [backendList[index]] on a Go slice: panics outside [0, len). *)
Definition index_slice (backendList : list string) (index : Z) : Res string :=
  if bool_decide (0 ≤ index)%Z then
    match backendList !! Z.to_nat index with
    | Some b => Ret b
    | None => Panic "index out of range"
    end
  else Panic "index out of range".

(** [getNextBackend].  [what] is the word the error message uses for the
    selector (["SNI"] in the L4 proxy, ["host"] in the L7 proxy); the two
    copies of the function differ in nothing else.  [rng] is the order in
    which this call's [Range] visits the pool. *)
Definition getNextBackendOf (what : string) (rng : RangeOrder)
    (config : Config) (sni : string) : Res string * Config :=
  match Backends config !! sni with
  | None => (Fail ("no backends available for " +:+ what +:+ ": " +:+ sni), config)
  | Some backends =>
      let backendList := rng backends in
      if bool_decide (length backendList = 0) then
        (Fail ("no backends available for " +:+ what +:+ ": " +:+ sni), config)
      else
        (* LoadOrStore(sni, 0) *)
        let index := default 0%Z (BackendIndices config !! sni) in
        let indices := match BackendIndices config !! sni with
                       | Some _ => BackendIndices config
                       | None => <[sni := 0%Z]> (BackendIndices config)
                       end in
        match index_slice backendList index with
        | Ret backend =>
            (Ret backend,
             mkConfig (Backends config)
                      (<[sni := Z.rem (index + 1) (Z.of_nat (length backendList))]> indices)
                      (Cache config))
        | r => (r, mkConfig (Backends config) indices (Cache config))
        end
  end.

Module L4.
Definition getNextBackend := getNextBackendOf "SNI".
End L4.

Module L7.
Definition getNextBackend := getNextBackendOf "host".
End L7.

(** The cursor a call reads: the stored one, or the [0] that [LoadOrStore]
    puts in place. *)
Definition cursorOf (config : Config) (sni : string) : Z :=
  default 0%Z (BackendIndices config !! sni).

(** Operations of the registry, for describing sequences of calls. *)
Inductive RegistryOp : Type :=
| Register (sni backend : string)
| Deregister (sni backend : string)
| Next (rng : RangeOrder) (sni : string).

(** Run a sequence of registry calls from [config]; the results of the
    [Next] calls are collected in order. *)
Fixpoint runOps (ops : list RegistryOp) (config : Config)
    : list (Res string) * Config :=
  match ops with
  | [] => ([], config)
  | Register sni b :: ops' => runOps ops' (addBackend config sni b)
  | Deregister sni b :: ops' => runOps ops' (removeBackend config sni b)
  | Next rng sni :: ops' =>
      let '(r, config') := L4.getNextBackend rng config sni in
      let '(rs, config'') := runOps ops' config' in
      (r :: rs, config'')
  end.

(** The invariant of the cursors: a stored cursor belongs to a selector with
    a pool, and lies in [0, |pool|). *)
Definition cursor_in_range (config : Config) : Prop :=
  ∀ sni c, BackendIndices config !! sni = Some c →
    ∃ pool, Backends config !! sni = Some pool
            ∧ (0 ≤ c < Z.of_nat (size pool))%Z.

(** Call sequences without [removeBackend], every [Range] order valid. *)
Definition no_removal (op : RegistryOp) : Prop :=
  match op with
  | Register _ _ => True
  | Deregister _ _ => False
  | Next rng _ => range_valid rng
  end.

#[global] Instance Res_eq_dec {A} `{EqDecision A} : EqDecision (Res A).
Proof. solve_decision. Defined.

(** [getFromCache] and [storeInCache]. *)
Definition getFromCache (config : Config) (key : string) : option string :=
  Cache config !! key.

Definition storeInCache (config : Config) (key data : string) : Config :=
  mkConfig (Backends config) (BackendIndices config) (<[key := data]> (Cache config)).

(** ** The SNI parser *)

Module SNI.
Local Open Scope Z_scope.

Definition len (data : list ascii) : Z := Z.of_nat (length data).

(** [int(b)] for a byte [b]. *)
Definition int (b : ascii) : Z := Z.of_N (N_of_ascii b).

(** [data[i]]: panics outside [0, len(data)). *)
Definition at_ (data : list ascii) (i : Z) : Res Z :=
  if bool_decide (0 ≤ i) then
    match data !! Z.to_nat i with
    | Some b => Ret (int b)
    | None => Panic "index out of range"
    end
  else Panic "index out of range".

(** [int(hi)<<8 | int(lo)]. *)
Definition be16 (hi lo : Z) : Z := Z.lor (Z.shiftl hi 8) lo.

(** [string(data[lo:hi])]: panics unless [0 <= lo <= hi <= len(data)]. *)
Definition slice_string (data : list ascii) (lo hi : Z) : Res string :=
  if bool_decide (0 ≤ lo ∧ lo ≤ hi ∧ hi ≤ len data) then
    Ret (string_of_list_ascii
           (take (Z.to_nat (hi - lo)) (drop (Z.to_nat lo) data)))
  else Panic "slice bounds out of range".

(** The loop [for offset+4 <= end { ... }] over the extensions.  Every turn
    moves [offset] forward by at least 4, so [fuel] bounds the turns. *)
Fixpoint walkExtensions (fuel : nat) (data : list ascii) (offset end_ : Z)
    : Res string :=
  match fuel with
  | O => OutOfFuel
  | S fuel' =>
      if bool_decide (offset + 4 ≤ end_) then
        (t0 ←! at_ data offset;;
         t1 ←! at_ data (offset + 1);;
         let extType := be16 t0 t1 in
         l0 ←! at_ data (offset + 2);;
         l1 ←! at_ data (offset + 3);;
         let extLen := be16 l0 l1 in
         let offset := offset + 4 in
         if bool_decide (offset + extLen > end_) then
           Fail "extension length exceeds data size"
         else if bool_decide (extType = 0) then
           (s0 ←! at_ data (offset + 3);;
            s1 ←! at_ data (offset + 4);;
            let sniLen := be16 s0 s1 in
            if bool_decide (offset + 5 + sniLen > end_) then
              Fail "invalid SNI length"
            else slice_string data (offset + 5) (offset + 5 + sniLen))%go
         else walkExtensions fuel' data (offset + extLen) end_)%go
      else Fail "SNI not found in ClientHello"
  end.

Definition parseTLSClientHello (data : list ascii) : Res string :=
  (if bool_decide (len data < 5) then Fail "data too short for TLS handshake" else
   d0 ←! at_ data 0;;
   if bool_decide (d0 ≠ 22) then Fail "not a TLS handshake" else
   d1 ←! at_ data 1;;
   if bool_decide (d1 ≠ 3) then Fail "unsupported TLS version" else
   d2 ←! at_ data 2;;
   if bool_decide (d2 ≠ 1 ∧ d2 ≠ 2 ∧ d2 ≠ 3) then Fail "unsupported TLS version" else
   d3 ←! at_ data 3;;
   d4 ←! at_ data 4;;
   let recordLen := be16 d3 d4 in
   if bool_decide (len data - 5 < recordLen) then Fail "incomplete handshake record" else
   handshakeType ←! at_ data 5;;
   if bool_decide (handshakeType ≠ 1) then Fail "not a ClientHello message" else
   let offset := 43 in
   if bool_decide (len data < offset) then Fail "invalid ClientHello message" else
   sessionIDLen ←! at_ data offset;;
   let offset := offset + (1 + sessionIDLen) in
   if bool_decide (len data < offset) then Fail "invalid ClientHello session ID" else
   c0 ←! at_ data offset;;
   c1 ←! at_ data (offset + 1);;
   let cipherSuitesLen := be16 c0 c1 in
   let offset := offset + (2 + cipherSuitesLen) in
   if bool_decide (len data < offset) then Fail "invalid ClientHello cipher suites" else
   compressionMethodsLen ←! at_ data offset;;
   let offset := offset + (1 + compressionMethodsLen) in
   if bool_decide (len data < offset) then Fail "invalid ClientHello compression methods" else
   e0 ←! at_ data offset;;
   e1 ←! at_ data (offset + 1);;
   let extensionsLen := be16 e0 e1 in
   let offset := offset + 2 in
   if bool_decide (len data < offset + extensionsLen) then
     Fail "extensions length exceeds data size"
   else
     let end_ := offset + extensionsLen in
     walkExtensions (length data) data offset end_)%go.

(** [extractSNI] hands the parser the 253 bytes that [Peek(253)] returned. *)
Definition peekSize : nat := 253.

(** *** The wire format of a ClientHello record (RFC 5246, RFC 6066)

    The sources hold no encoder: the clients use [crypto/tls].  The layout
    below is the one the parser walks, written as an encoder so that the
    round trip can be stated. *)

Definition byte (n : Z) : ascii := ascii_of_N (Z.to_N n).
Definition u16 (n : Z) : list ascii := [byte (n / 256); byte (n mod 256)].
Definition u24 (n : Z) : list ascii :=
  [byte (n / 65536); byte (n / 256 mod 256); byte (n mod 256)].

Record Extension : Type := mkExtension {
  ext_type : Z;
  ext_data : list ascii
}.

Definition encodeExtension (e : Extension) : list ascii :=
  u16 (ext_type e) ++ u16 (len (ext_data e)) ++ ext_data e.

Definition encodeExtensions (es : list Extension) : list ascii :=
  concat (encodeExtension <$> es).

Record ClientHello : Type := mkClientHello {
  record_minor : Z;                    (* record version is 3.record_minor *)
  legacy_version : ascii * ascii;
  random : list ascii;
  session_id : list ascii;
  cipher_suites : list ascii;
  compression_methods : list ascii;
  extensions : list Extension
}.

Definition helloTail (ch : ClientHello) : list ascii :=
  byte (len (session_id ch)) :: session_id ch
  ++ u16 (len (cipher_suites ch)) ++ cipher_suites ch
  ++ byte (len (compression_methods ch)) :: compression_methods ch
  ++ u16 (len (encodeExtensions (extensions ch)))
  ++ encodeExtensions (extensions ch).

Definition helloBody (ch : ClientHello) : list ascii :=
  (legacy_version ch).1 :: (legacy_version ch).2 :: random ch ++ helloTail ch.

Definition handshakeMessage (ch : ClientHello) : list ascii :=
  byte 1 :: u24 (len (helloBody ch)) ++ helloBody ch.

Definition tlsRecord (ch : ClientHello) : list ascii :=
  byte 22 :: byte 3 :: byte (record_minor ch)
  :: u16 (len (handshakeMessage ch)) ++ handshakeMessage ch.

(** The [server_name] extension: a list whose first entry is the host name
    [name] ([name_type = 0]); [more] holds any further entries. *)
Definition serverNameExtension (name : string) (more : list ascii) : Extension :=
  let name_bytes := list_ascii_of_string name in
  mkExtension 0
    (u16 (3 + len name_bytes + len more)
     ++ byte 0 :: u16 (len name_bytes) ++ name_bytes ++ more).

Definition wf_extension (e : Extension) : Prop :=
  0 ≤ ext_type e < 65536 ∧ len (ext_data e) < 65536.

(** A ClientHello that fits one TLS record. *)
Definition wf_hello (ch : ClientHello) : Prop :=
  (record_minor ch = 1 ∨ record_minor ch = 2 ∨ record_minor ch = 3)
  ∧ length (random ch) = 32%nat
  ∧ len (session_id ch) ≤ 32
  ∧ len (cipher_suites ch) < 65536
  ∧ len (compression_methods ch) < 256
  ∧ Forall wf_extension (extensions ch)
  ∧ len (encodeExtensions (extensions ch)) < 65536
  ∧ len (handshakeMessage ch) ≤ 16384.

(** [ch] carries the host name [name]: its first extension of type 0 is a
    [server_name] extension whose first entry is [name]. *)
Definition carries_sni (ch : ClientHello) (name : string) : Prop :=
  ∃ before more after,
    extensions ch = before ++ serverNameExtension name more :: after
    ∧ Forall (λ e, ext_type e ≠ 0) before.

(** *** Inputs used in examples *)

(** A ClientHello with three extensions, the second being [server_name]. *)
Definition demoHello : ClientHello :=
  mkClientHello 1 (byte 3, byte 3) (replicate 32 (byte 0)) []
    [byte 19; byte 1] [byte 0]
    [mkExtension 10 [byte 0; byte 2; byte 0; byte 29];
     serverNameExtension "svc.test" [];
     mkExtension 11 [byte 1; byte 0]].

(** A TLS 1.2 ClientHello as a client puts it on the wire, 170 bytes, with
    the host name [example.ulfheim.net]. *)
Definition capturedBytes : list ascii := byte <$>
  [22; 3; 1; 0; 165; 1; 0; 0; 161; 3; 3;
   0; 1; 2; 3; 4; 5; 6; 7; 8; 9; 10; 11; 12; 13; 14; 15;
   16; 17; 18; 19; 20; 21; 22; 23; 24; 25; 26; 27; 28; 29; 30; 31;
   0;
   0; 32; 204; 168; 204; 169; 192; 47; 192; 48; 192; 43; 192; 44; 192; 19;
   192; 9; 192; 20; 192; 10; 0; 156; 0; 157; 0; 47; 0; 53; 192; 18; 0; 10;
   1; 0;
   0; 88;
   0; 0; 0; 24; 0; 22; 0; 0; 19;
   101; 120; 97; 109; 112; 108; 101; 46; 117; 108; 102; 104; 101; 105; 109;
   46; 110; 101; 116;
   0; 5; 0; 5; 1; 0; 0; 0; 0;
   0; 10; 0; 10; 0; 8; 0; 29; 0; 23; 0; 24; 0; 25;
   0; 11; 0; 2; 1; 0;
   0; 13; 0; 18; 0; 16; 4; 1; 4; 3; 5; 1; 5; 3; 6; 1; 6; 3; 2; 1; 2; 3;
   255; 1; 0; 1; 0;
   0; 18; 0; 0].

(** The same ClientHello, field by field. *)
Definition capturedHello : ClientHello :=
  mkClientHello 1 (byte 3, byte 3) (byte <$> seqZ 0 32) []
    (byte <$> [204; 168; 204; 169; 192; 47; 192; 48; 192; 43; 192; 44; 192; 19;
               192; 9; 192; 20; 192; 10; 0; 156; 0; 157; 0; 47; 0; 53; 192; 18;
               0; 10])
    [byte 0]
    [serverNameExtension "example.ulfheim.net" [];
     mkExtension 5 (byte <$> [1; 0; 0; 0; 0]);
     mkExtension 10 (byte <$> [0; 8; 0; 29; 0; 23; 0; 24; 0; 25]);
     mkExtension 11 (byte <$> [1; 0]);
     mkExtension 13 (byte <$> [0; 16; 4; 1; 4; 3; 5; 1; 5; 3; 6; 1; 6; 3; 2; 1; 2; 3]);
     mkExtension 65281 [byte 0];
     mkExtension 18 []].

(** *** The [server_name] list, entry by entry

    RFC 6066: the extension data is a list length followed by entries, each
    a [name_type] byte, a two-byte name length and the name. *)
Record ServerName : Type := mkServerName {
  name_type : Z;
  server_name : string
}.

Definition encodeServerName (entry : ServerName) : list ascii :=
  byte (name_type entry)
  :: u16 (len (list_ascii_of_string (server_name entry)))
  ++ list_ascii_of_string (server_name entry).

Definition encodeServerNames (entries : list ServerName) : list ascii :=
  concat (encodeServerName <$> entries).

Definition serverNameList (entries : list ServerName) : Extension :=
  mkExtension 0
    (u16 (len (encodeServerNames entries)) ++ encodeServerNames entries).

(** The host name of a list as the specification reads it (section 4.3,
    step 9): the name of the first entry with [name_type = 0]. *)
Definition spec_host_name (entries : list ServerName) : option string :=
  server_name <$> head (filter (λ entry, name_type entry = 0) entries).

(** The host name of a ClientHello as the specification reads it: that of
    the list in its first extension of type 0. *)
Definition spec_sni (ch : ClientHello) (entries : list ServerName)
    (name : string) : Prop :=
  ∃ before after,
    extensions ch = before ++ serverNameList entries :: after
    ∧ Forall (λ e, ext_type e ≠ 0) before
    ∧ spec_host_name entries = Some name.

(** A ClientHello whose [server_name] list holds an entry of type 1 before
    the host name. *)
Definition twoNames : list ServerName :=
  [mkServerName 1 "foo"; mkServerName 0 "svc.test"].
Definition twoNamesHello : ClientHello :=
  mkClientHello 1 (byte 3, byte 3) (replicate 32 (byte 0)) []
    [byte 19; byte 1] [byte 0] [serverNameList twoNames].

(** A record header that announces an empty record, and nothing after it. *)
Definition emptyRecordHeader : list ascii := byte <$> [22; 3; 1; 0; 0].

(** 253 bytes: the start of a ClientHello whose session-id length byte, at
    offset 43, is 209. *)
Definition sessionOverrun : list ascii :=
  (byte <$> [22; 3; 1; 0; 0; 1]) ++ replicate 37 (byte 0)
  ++ [byte 209] ++ replicate 209 (byte 0).

(** A complete record whose only extension is a [server_name] extension
    with no data, ending the input. *)
Definition emptyServerName : list ascii :=
  (byte <$> [22; 3; 1; 0; 48; 1; 0; 0; 44; 3; 3]) ++ replicate 32 (byte 0)
  ++ (byte <$> [0; 0; 0; 0; 0; 4; 0; 0; 0; 0]).

End SNI.

(** ** HTTP: what the handlers see of a request and say in a reply *)

Abbreviation Header := (gmap string (list string)).

(** The fields of [url.URL] the forwarder reads. *)
Record URL : Type := mkURL {
  Path : string;
  RawQuery : string
}.

(** An incoming [*http.Request]; [Body] is the content of the body stream. *)
Record Request : Type := mkRequest {
  Method : string;
  Host : string;
  ReqURL : URL;
  ReqHeader : Header;
  Body : string
}.

(** What the handler handed to its [http.ResponseWriter]: the status of
    [WriteHeader] (200 when the handler only writes), the headers it set and
    the bytes of [Write].  Headers that [net/http] adds on its own (Date,
    Content-Type sniffing, the headers of [http.Error]) are left out, and so
    is what [net/http] makes of a status on the wire (an interim response
    for an informational status, no body for 204 and 304). *)
Record Reply : Type := mkReply {
  StatusCode : Z;
  ReplyHeader : Header;
  ReplyBody : string
}.

Definition newline : string := String (ascii_of_nat 10) EmptyString.

(** [http.Error(w, msg, code)]. *)
Definition http_Error (msg : string) (code : Z) : Reply :=
  mkReply code ∅ (msg +:+ newline).

Definition StatusOK : Z := 200.
Definition StatusBadRequest : Z := 400.
Definition StatusMethodNotAllowed : Z := 405.
Definition StatusInternalServerError : Z := 500.
Definition StatusBadGateway : Z := 502.
Definition StatusServiceUnavailable : Z := 503.
Definition MethodPost : string := "POST".

(** ** The control plane *)

(** The decoded registration payload: the two string fields of the anonymous
    struct ([Name]/[Address] in the L4 proxy, [Host]/[Backend] in the L7
    proxy). *)
Record Registration : Type := mkRegistration {
  reg_selector : string;
  reg_backend : string
}.

(** [json.NewDecoder(r.Body).Decode(&registration)]: [None] when [Decode]
    returns an error.  The decoder belongs to [encoding/json]; the handlers
    take it as an argument. *)
Definition Decoder : Type := string → option Registration.

(** The handler that [startRegistrationServer] installs on [/register]. *)
Definition registerHandler (decode : Decoder) (config : Config)
    (method body : string) : Reply * Config :=
  if bool_decide (method ≠ MethodPost) then
    (http_Error "Invalid request method" StatusMethodNotAllowed, config)
  else
    match decode body with
    | None => (http_Error "Invalid JSON payload" StatusBadRequest, config)
    | Some registration =>
        if bool_decide (reg_selector registration = "" ∨ reg_backend registration = "") then
          (http_Error "Name and Address are required" StatusBadRequest, config)
        else
          (mkReply StatusOK ∅
             ("Backend " +:+ reg_selector registration +:+ " registered successfully"),
           addBackend config (reg_selector registration) (reg_backend registration))
    end.

(** The handler that [startBackendRegistrationAPI] installs on
    [/register-backend]. *)
Definition registerBackendHandler (decode : Decoder) (config : Config)
    (method body : string) : Reply * Config :=
  if bool_decide (method ≠ MethodPost) then
    (http_Error "Invalid request method" StatusMethodNotAllowed, config)
  else
    match decode body with
    | None => (http_Error "Invalid JSON payload" StatusBadRequest, config)
    | Some registration =>
        if bool_decide (reg_selector registration = "" ∨ reg_backend registration = "") then
          (http_Error "Host and Backend are required" StatusBadRequest, config)
        else
          (mkReply StatusOK ∅
             ("Backend " +:+ reg_backend registration
              +:+ " registered successfully for host " +:+ reg_selector registration),
           addBackend config (reg_selector registration) (reg_backend registration))
    end.

(** *** Instances used in examples *)

Definition quoted (s : string) : string :=
  String (ascii_of_nat 34) s +:+ String (ascii_of_nat 34) EmptyString.

(** The body [{"name":"","address":"1.2.3.4:80"}]. *)
Definition emptyNameBody : string :=
  "{" +:+ quoted "name" +:+ ":" +:+ quoted ""
  +:+ "," +:+ quoted "address" +:+ ":" +:+ quoted "1.2.3.4:80" +:+ "}".

(** The body [{"name":"svc.test","address":"127.0.0.1:9001"}]. *)
Definition svcTestBody : string :=
  "{" +:+ quoted "name" +:+ ":" +:+ quoted "svc.test"
  +:+ "," +:+ quoted "address" +:+ ":" +:+ quoted "127.0.0.1:9001" +:+ "}".

(** A decoder that agrees with [encoding/json] on the two bodies above and
    rejects every other body. *)
Definition exampleDecoder : Decoder := λ body,
  if bool_decide (body = emptyNameBody) then Some (mkRegistration "" "1.2.3.4:80")
  else if bool_decide (body = svcTestBody) then
    Some (mkRegistration "svc.test" "127.0.0.1:9001")
  else None.

(** The body [{"name":"svc.test","address":"127.0.0.1:9001"}}garbage]: a
    complete object followed by bytes that no JSON text can go on with. *)
Definition trailingBytes : string := "}garbage".
Definition trailingBody : string := svcTestBody +:+ trailingBytes.

(** [Decode] reads one JSON value from the start of the body and returns at
    the brace that closes it; what follows is left unread.  This decoder
    agrees with [encoding/json] on every body that starts with
    [svcTestBody], and is used on such bodies only. *)
Definition streamDecoder : Decoder := λ body,
  if String.prefix svcTestBody body then
    Some (mkRegistration "svc.test" "127.0.0.1:9001")
  else None.

(** ** The L7 forwarder *)

(** The request that [http.NewRequest(r.Method, backendURL+r.URL.Path, r.Body)]
    builds, after [req.Header = r.Header]. *)
Record UpstreamRequest : Type := mkUpstreamRequest {
  UpMethod : string;
  UpURL : string;
  UpHeader : Header;
  UpBody : string
}.

(** [io.ReadAll(resp.Body)]. *)
Inductive ReadResult : Type :=
| ReadOk (body : string)
| ReadErr (err : string).

(** [client.Do(req)]: a transport error, or a response whose body is then
    read. *)
Inductive DoResult : Type :=
| DoErr (err : string)
| DoResp (code : Z) (hdr : Header) (body : ReadResult).

(** What the forwarder takes from the libraries and the network:
    [URL.String()], whether [http.NewRequest] rejects a method and target,
    and the answer of the upstream to a request. *)
Record Env : Type := mkEnv {
  URL_String : URL → string;
  NewRequest_fails : string → string → bool;
  Do : UpstreamRequest → DoResult
}.

(** What a call of the handler did besides replying. *)
Inductive Event : Type :=
| EvNext (host : string)            (* [getNextBackend] was called *)
| EvDo (req : UpstreamRequest).     (* an upstream request was issued *)

Inductive Outcome : Type :=
| Replied (reply : Reply)
| Panicked (msg : string).

(** [w.WriteHeader(code)] followed by [w.Write(body)], after the headers
    [hdr] were added.  [WriteHeader] checks the code first and panics on one
    outside [100, 999]; the status of an upstream response can be such a
    code, since the client accepts any three digits in a status line. *)
Definition writeResponse (code : Z) (hdr : Header) (body : string) : Outcome :=
  if bool_decide (code < 100 ∨ 999 < code)%Z then
    Panicked ("invalid WriteHeader code " +:+ pretty code)
  else Replied (mkReply code hdr body).

(** [cacheKey := fmt.Sprintf("%s:%s", host, r.URL.String())]. *)
Definition cacheKey (env : Env) (r : Request) : string :=
  Host r +:+ ":" +:+ URL_String env (ReqURL r).

(** The loop that copies [resp.Header] into [w.Header()] with [Add], value
    by value: a key without values adds nothing. *)
Definition copyHeader (hdr : Header) : Header :=
  filter (λ kv, kv.2 ≠ []) hdr.

(** [handleHTTPRequest] of the caching L7 proxy. *)
Definition handleHTTPRequest (env : Env) (rng : RangeOrder) (config : Config)
    (r : Request) : Outcome * Config * list Event :=
  let host := Host r in
  let key := cacheKey env r in
  match getFromCache config key with
  | Some cachedResponse =>
      (Replied (mkReply StatusOK ∅ cachedResponse), config, [])
  | None =>
      match L7.getNextBackend rng config host with
      | (Ret backendURL, config') =>
          let target := backendURL +:+ Path (ReqURL r) in
          if NewRequest_fails env (Method r) target then
            (Replied (http_Error "Failed to create request" StatusInternalServerError),
             config', [EvNext host])
          else
            let req := mkUpstreamRequest (Method r) target (ReqHeader r) (Body r) in
            match Do env req with
            | DoErr _ =>
                (Replied (http_Error "Failed to connect to backend" StatusBadGateway),
                 config', [EvNext host; EvDo req])
            | DoResp _ _ (ReadErr _) =>
                (Replied (http_Error "Failed to read backend response"
                            StatusInternalServerError),
                 config', [EvNext host; EvDo req])
            | DoResp code hdr (ReadOk body) =>
                (writeResponse code (copyHeader hdr) body,
                 storeInCache config' key body, [EvNext host; EvDo req])
            end
      | (Fail _, config') =>
          (Replied (http_Error "No backend available" StatusServiceUnavailable),
           config', [EvNext host])
      | (Panic msg, config') => (Panicked msg, config', [EvNext host])
      | (OutOfFuel, config') => (Panicked "", config', [EvNext host])
      end
  end.

(** [handleHTTPRequest] of the stress-test build of the L7 proxy: the same
    handler with the cache lookup and the cache store commented out.  Its
    metrics (gauges, counters, latency) are not modelled. *)
Module StressL7.
Definition handleHTTPRequest (env : Env) (rng : RangeOrder) (config : Config)
    (r : Request) : Outcome * Config * list Event :=
  let host := Host r in
  match L7.getNextBackend rng config host with
  | (Ret backendURL, config') =>
      let target := backendURL +:+ Path (ReqURL r) in
      if NewRequest_fails env (Method r) target then
        (Replied (http_Error "Failed to create request" StatusInternalServerError),
         config', [EvNext host])
      else
        let req := mkUpstreamRequest (Method r) target (ReqHeader r) (Body r) in
        match Do env req with
        | DoErr _ =>
            (Replied (http_Error "Failed to connect to backend" StatusBadGateway),
             config', [EvNext host; EvDo req])
        | DoResp _ _ (ReadErr _) =>
            (Replied (http_Error "Failed to read backend response"
                        StatusInternalServerError),
             config', [EvNext host; EvDo req])
        | DoResp code hdr (ReadOk body) =>
            (writeResponse code (copyHeader hdr) body,
             config', [EvNext host; EvDo req])
        end
  | (Fail _, config') =>
      (Replied (http_Error "No backend available" StatusServiceUnavailable),
       config', [EvNext host])
  | (Panic msg, config') => (Panicked msg, config', [EvNext host])
  | (OutOfFuel, config') => (Panicked "", config', [EvNext host])
  end.
End StressL7.

(** The upstream request of a run, when one was issued. *)
Definition upstreamRequests (trace : list Event) : list UpstreamRequest :=
  omap (λ ev, match ev with EvDo req => Some req | EvNext _ => None end) trace.

(** *** Instances used in examples *)

(** [URL.String()] of an origin-form target without characters to escape. *)
Definition originFormString (u : URL) : string :=
  if bool_decide (RawQuery u = "") then Path u
  else Path u +:+ "?" +:+ RawQuery u.

(** An upstream that answers every request with status 200 and body ["v1"]. *)
Definition demoEnv : Env :=
  mkEnv originFormString (λ _ _, false) (λ _, DoResp 200 ∅ (ReadOk "v1")).

(** An upstream that cannot be reached. *)
Definition downEnv : Env :=
  mkEnv originFormString (λ _ _, false) (λ _, DoErr "connection refused").

Definition demoConfig : Config :=
  addBackend emptyConfig "api.test" "http://127.0.0.1:9100".

Definition getX : Request := mkRequest "GET" "api.test" (mkURL "/x" "") ∅ "".
Definition postX : Request := mkRequest "POST" "api.test" (mkURL "/x" "") ∅ "payload".
Definition getXQuery : Request := mkRequest "GET" "api.test" (mkURL "/x" "a=1") ∅ "".

(** ** The L4 proxy: connections *)

(** What the proxy reads from a client connection: the bytes that arrive
    before the reading ends, and the error that ends it (end of stream,
    reset). *)
Record ClientConn : Type := mkClientConn {
  incoming : list ascii;
  readError : string
}.

(** [bufferedConn.Peek(n)], for [n] within the reader's buffer: the next
    [n] bytes without consuming them, or the read error when fewer than
    [n] arrive. *)
Definition Peek (conn : ClientConn) (n : nat) : Res (list ascii) :=
  if bool_decide (n ≤ length (incoming conn)) then Ret (take n (incoming conn))
  else Fail (readError conn).

(** [extractSNI]; the two copies of it, in the first and in the second
    version of the L4 proxy, are the same. *)
Definition extractSNI (conn : ClientConn) : Res string :=
  match Peek conn SNI.peekSize with
  | Ret buf =>
      match SNI.parseTLSClientHello buf with
      | Ret sni => Ret sni
      | Fail err => Fail ("failed to parse ClientHello: " +:+ err)
      | Panic msg => Panic msg
      | OutOfFuel => OutOfFuel
      end
  | Fail err => Fail ("failed to read TLS handshake: " +:+ err)
  | Panic msg => Panic msg
  | OutOfFuel => OutOfFuel
  end.

(** [parseSNI]: the server name is the service name. *)
Definition parseSNI (sni : string) : Res string := Ret sni.

(** [net.Dial("tcp", addr)]: [None] when the connection is made, the error
    otherwise. *)
Definition Dialer : Type := string → option string.

(** [forwardTraffic], up to the dial.  After a successful dial the two
    copy loops run until both directions end, and the function returns
    [nil]; the copying itself is not modelled. *)
Definition forwardTraffic (dial : Dialer) (backendAddr : string) : Res unit :=
  match dial backendAddr with
  | Some err => Fail ("failed to connect to backend: " +:+ err)
  | None => Ret tt
  end.

(** How the handling of one client connection ends. *)
Inductive ConnOutcome : Type :=
| ConnClosed (log : string)               (* closed without a dial; the line logged *)
| ConnDialFailed (backendAddr log : string)  (* the dial failed; the line logged *)
| ConnForwarded (backendAddr : string)    (* traffic was forwarded to the backend *)
| ConnPanicked (msg : string).

Module L4Proxy.

(** [handleConnection] of the second version of the L4 proxy (pools and
    round robin). *)
Definition handleConnection (dial : Dialer) (rng : RangeOrder) (config : Config)
    (conn : ClientConn) : ConnOutcome * Config :=
  match extractSNI conn with
  | Ret sni =>
      match parseSNI sni with
      | Ret serviceName =>
          match L4.getNextBackend rng config serviceName with
          | (Ret backendAddr, config') =>
              match forwardTraffic dial backendAddr with
              | Ret _ => (ConnForwarded backendAddr, config')
              | Fail err =>
                  (ConnDialFailed backendAddr ("Failed to forward traffic: " +:+ err),
                   config')
              | Panic msg => (ConnPanicked msg, config')
              | OutOfFuel => (ConnPanicked "", config')
              end
          | (Fail _, config') =>
              (ConnClosed ("No backend found for SNI: " +:+ sni), config')
          | (Panic msg, config') => (ConnPanicked msg, config')
          | (OutOfFuel, config') => (ConnPanicked "", config')
          end
      | Fail err => (ConnClosed ("Failed to parse SNI: " +:+ err), config)
      | Panic msg => (ConnPanicked msg, config)
      | OutOfFuel => (ConnPanicked "", config)
      end
  | Fail err => (ConnClosed ("Failed to extract SNI: " +:+ err), config)
  | Panic msg => (ConnPanicked msg, config)
  | OutOfFuel => (ConnPanicked "", config)
  end.

(** What [handleTLSTerminationConnection] takes from [crypto/tls] and the
    network: whether the key pair loads, how the handshake with the client
    ends and which server name it carried, and the bytes read from the
    backend while forwarding. *)
Record TLSConn : Type := mkTLSConn {
  LoadX509KeyPair : option string;     (* the error, when loading fails *)
  Handshake : option string;           (* the error, when the handshake fails *)
  ServerName : string;                 (* [ConnectionState().ServerName] *)
  backendBytes : string                (* what the tee reader recorded *)
}.

Inductive TLSOutcome : Type :=
| TLSClosed (log : string)             (* closed without a dial; the line logged *)
| TLSCached (cachedResponse : string)  (* [handleCachedResponse] wrote these bytes *)
| TLSForwarded (backendAddr response : string)
| TLSPanicked (msg : string).

(** [handleTLSTerminationConnection]. *)
Definition handleTLSTerminationConnection (dial : Dialer) (rng : RangeOrder)
    (config : Config) (conn : TLSConn) : TLSOutcome * Config :=
  match LoadX509KeyPair conn with
  | Some err => (TLSClosed ("Failed to load TLS certificate: " +:+ err), config)
  | None =>
      match Handshake conn with
      | Some err => (TLSClosed ("TLS handshake failed: " +:+ err), config)
      | None =>
          let sni := ServerName conn in
          let cacheKey := "tls:" +:+ sni in
          match getFromCache config cacheKey with
          | Some cachedResponse => (TLSCached cachedResponse, config)
          | None =>
              match L4.getNextBackend rng config sni with
              | (Ret backendAddr, config') =>
                  match dial backendAddr with
                  | Some err =>
                      (TLSClosed ("Failed to connect to backend: " +:+ err), config')
                  | None =>
                      (TLSForwarded backendAddr (backendBytes conn),
                       storeInCache config' cacheKey (backendBytes conn))
                  end
              | (Fail _, config') =>
                  (TLSClosed ("No backend found for SNI: " +:+ sni), config')
              | (Panic msg, config') => (TLSPanicked msg, config')
              | (OutOfFuel, config') => (TLSPanicked "", config')
              end
          end
      end
  end.

End L4Proxy.

(** ** The first version of the L4 proxy: one address per name *)

Module V1.

(** [Config.Backends] of the first version maps a name to one address. *)
Abbreviation Backends := (gmap string string).

(** The handler that [startRegistrationServer] installs on [/register]:
    [config.Backends.Store(name, address)]. *)
Definition registerHandler (decode : Decoder) (config : Backends)
    (method body : string) : Reply * Backends :=
  if bool_decide (method ≠ MethodPost) then
    (http_Error "Invalid request method" StatusMethodNotAllowed, config)
  else
    match decode body with
    | None => (http_Error "Invalid JSON payload" StatusBadRequest, config)
    | Some registration =>
        if bool_decide (reg_selector registration = "" ∨ reg_backend registration = "") then
          (http_Error "Name and Address are required" StatusBadRequest, config)
        else
          (mkReply StatusOK ∅
             ("Backend " +:+ reg_selector registration +:+ " registered successfully"),
           <[reg_selector registration := reg_backend registration]> config)
    end.

(** [handleConnection]: the address is looked up by the server name. *)
Definition handleConnection (dial : Dialer) (config : Backends)
    (conn : ClientConn) : ConnOutcome :=
  match extractSNI conn with
  | Ret sni =>
      match parseSNI sni with
      | Ret serviceName =>
          match config !! serviceName with
          | None => ConnClosed ("No backend found for SNI: " +:+ sni)
          | Some backendAddr =>
              match forwardTraffic dial backendAddr with
              | Ret _ => ConnForwarded backendAddr
              | Fail err =>
                  ConnDialFailed backendAddr ("Failed to forward traffic: " +:+ err)
              | Panic msg => ConnPanicked msg
              | OutOfFuel => ConnPanicked ""
              end
          end
      | Fail err => ConnClosed ("Failed to parse SNI: " +:+ err)
      | Panic msg => ConnPanicked msg
      | OutOfFuel => ConnPanicked ""
      end
  | Fail err => ConnClosed ("Failed to extract SNI: " +:+ err)
  | Panic msg => ConnPanicked msg
  | OutOfFuel => ConnPanicked ""
  end.

End V1.

(** ** Sequences of calls *)

(** The backends that a sequence of registry calls registers. *)
Definition registrations (ops : list RegistryOp) : list (string * string) :=
  omap (λ op, match op with Register sni b => Some (sni, b) | _ => None end) ops.

(** [b] is in the pool of [sni]. *)
Definition in_pool (config : Config) (sni b : string) : Prop :=
  ∃ pool, Backends config !! sni = Some pool ∧ is_Some (pool !! b).

(** What reaches the L7 proxy: a request to the registration handler, or a
    request to proxy, with the order in which its [Range] visits the pool. *)
Inductive L7Op : Type :=
| L7Register (method body : string)
| L7Request (rng : RangeOrder) (r : Request).

(** Serve a sequence of requests one after the other. *)
Fixpoint runL7 (decode : Decoder) (env : Env) (ops : list L7Op) (config : Config)
    : list Outcome * Config :=
  match ops with
  | [] => ([], config)
  | L7Register method body :: ops' =>
      let '(reply, config') := registerBackendHandler decode config method body in
      let '(outs, config'') := runL7 decode env ops' config' in
      (Replied reply :: outs, config'')
  | L7Request rng r :: ops' =>
      let '(out, config', _) := handleHTTPRequest env rng config r in
      let '(outs, config'') := runL7 decode env ops' config' in
      (out :: outs, config'')
  end.

(** Every response of the upstream has a status that [WriteHeader]
    accepts. *)
Definition upstream_statuses_valid (env : Env) : Prop :=
  ∀ req code hdr body, Do env req = DoResp code hdr body → (100 ≤ code ≤ 999)%Z.

(** The outcome is the panic of [WriteHeader] on an upstream status. *)
Definition WriteHeader_panic (env : Env) (out : Outcome) : Prop :=
  ∃ req code hdr body,
    Do env req = DoResp code hdr (ReadOk body)
    ∧ (code < 100 ∨ 999 < code)%Z
    ∧ out = Panicked ("invalid WriteHeader code " +:+ pretty code).

Definition l7_rng_valid (op : L7Op) : Prop :=
  match op with
  | L7Register _ _ => True
  | L7Request rng _ => range_valid rng
  end.

(** A stream that starts with the record of [demoHello] and goes on with
    zero bytes, 300 bytes in all; and the record alone. *)
Definition demoConn : ClientConn :=
  mkClientConn (SNI.tlsRecord SNI.demoHello ++ replicate 217 (SNI.byte 0)) "EOF".


(** A dialer that reaches every address, and one that reaches none. *)
Definition dialOk : Dialer := λ _, None.
Definition dialDown : Dialer := λ _, Some "connection refused".

(** A TLS-terminated connection for [svc.test] whose backend answers
    [hello]. *)
Definition demoTLSConn : L4Proxy.TLSConn :=
  L4Proxy.mkTLSConn None None "svc.test" "hello".

(** The body [{"host":"api.test","backend":"http://127.0.0.1:9100"}], and a
    decoder that agrees with [encoding/json] on it and rejects every other
    body. *)
Definition apiTestBody : string :=
  "{" +:+ quoted "host" +:+ ":" +:+ quoted "api.test"
  +:+ "," +:+ quoted "backend" +:+ ":" +:+ quoted "http://127.0.0.1:9100" +:+ "}".
Definition apiDecoder : Decoder := λ body,
  if bool_decide (body = apiTestBody) then
    Some (mkRegistration "api.test" "http://127.0.0.1:9100")
  else None.

(** The body [{"host":"api.test","backend":"http://127.0.0.1:9101"}], a
    second backend for the same host, and a decoder that agrees with
    [encoding/json] on the two bodies and is used on them only. *)
Definition apiTestBody2 : string :=
  "{" +:+ quoted "host" +:+ ":" +:+ quoted "api.test"
  +:+ "," +:+ quoted "backend" +:+ ":" +:+ quoted "http://127.0.0.1:9101" +:+ "}".
Definition apiPoolDecoder : Decoder := λ body,
  if bool_decide (body = apiTestBody) then
    Some (mkRegistration "api.test" "http://127.0.0.1:9100")
  else if bool_decide (body = apiTestBody2) then
    Some (mkRegistration "api.test" "http://127.0.0.1:9101")
  else None.

(** An upstream whose status line carries the code [000]. *)
Definition badStatusEnv : Env :=
  mkEnv originFormString (λ _ _, false) (λ _, DoResp 0 ∅ (ReadOk "v1")).

Definition getY : Request := mkRequest "GET" "api.test" (mkURL "/y" "") ∅ "".

(** A session of the L7 proxy: two registrations for [api.test] and four
    requests, the last of which repeats the first. *)
Definition apiSession : list L7Op :=
  [L7Register "POST" apiTestBody; L7Request range_trie getX;
   L7Register "POST" apiTestBody2; L7Request range_trie getY;
   L7Request range_trie_rev getXQuery; L7Request range_trie getX].

(** The L4 registry after [svc.test] was registered once. *)
Definition svcConfig : Config := addBackend emptyConfig "svc.test" "127.0.0.1:9001".

(** * Properties *)

(** ** The registry *)

Lemma range_trie_valid : range_valid range_trie.
Proof.
  intros m. split; [apply NoDup_fst_map_to_list|].
  intros k. unfold range_trie. rewrite list_elem_of_fmap. split.
  - intros [[k' v] [-> Hin]]. apply elem_of_map_to_list in Hin. by exists v.
  - intros [v Hv]. exists (k, v). split; [done|]. by apply elem_of_map_to_list.
Qed.

Lemma range_trie_rev_valid : range_valid range_trie_rev.
Proof.
  intros m. destruct (range_trie_valid m) as [Hnd Hin]. split.
  - unfold range_trie_rev. by rewrite reverse_Permutation.
  - intros k. unfold range_trie_rev. rewrite elem_of_reverse. apply Hin.
Qed.

(** A valid visiting order lists as many keys as the pool holds. *)
Lemma range_valid_length (rng : RangeOrder) (m : gmap string bool) :
  range_valid rng → length (rng m) = size m.
Proof.
  intros Hv. destruct (Hv m) as [Hnd Hin].
  destruct (range_trie_valid m) as [Hnd' Hin'].
  assert (rng m ≡ₚ range_trie m) as Hperm.
  { apply NoDup_Permutation; [done..|]. intros k. by rewrite Hin, Hin'. }
  rewrite Hperm. unfold range_trie. by rewrite length_fmap, length_map_to_list.
Qed.

Lemma index_slice_lookup (l : list string) (i : nat) (b : string) :
  l !! i = Some b → index_slice l (Z.of_nat i) = Ret b.
Proof.
  intros H. unfold index_slice. rewrite bool_decide_eq_true_2 by lia.
  by rewrite Nat2Z.id, H.
Qed.

Lemma index_slice_ge (l : list string) (i : Z) :
  (Z.of_nat (length l) ≤ i)%Z → index_slice l i = Panic "index out of range".
Proof.
  intros H. unfold index_slice. case_bool_decide; [|done].
  rewrite lookup_ge_None_2; [done|lia].
Qed.

(** One call with the cursor in range: it returns the backend under the
    cursor and moves the cursor one step, modulo the length. *)
Lemma getNextBackendOf_in_range what rng config sni pool c b :
  Backends config !! sni = Some pool →
  cursorOf config sni = Z.of_nat c →
  rng pool !! c = Some b →
  ∃ config',
    getNextBackendOf what rng config sni = (Ret b, config')
    ∧ Backends config' = Backends config
    ∧ Cache config' = Cache config
    ∧ cursorOf config' sni = Z.of_nat (S c mod length (rng pool)).
Proof.
  intros Hpool Hc Hb. unfold getNextBackendOf. rewrite Hpool. cbn zeta.
  assert (c < length (rng pool)) as Hlt by (by eapply lookup_lt_Some).
  rewrite bool_decide_eq_false_2 by lia.
  fold (cursorOf config sni). rewrite Hc, (index_slice_lookup _ _ _ Hb).
  eexists. split; [done|]. split; [done|]. split; [done|].
  unfold cursorOf. cbn. rewrite lookup_insert_eq. cbn.
  rewrite Z.rem_mod_nonneg by lia.
  rewrite Nat2Z.inj_mod. f_equal. lia.
Qed.

(** One call with the cursor at or beyond the length of the list: the index
    expression panics. *)
Lemma getNextBackendOf_stale what rng config sni pool :
  Backends config !! sni = Some pool →
  rng pool ≠ [] →
  (Z.of_nat (length (rng pool)) ≤ cursorOf config sni)%Z →
  (getNextBackendOf what rng config sni).1 = Panic "index out of range".
Proof.
  intros Hpool Hne Hc. unfold getNextBackendOf. rewrite Hpool. cbn zeta.
  rewrite bool_decide_eq_false_2 by (by destruct (rng pool)).
  fold (cursorOf config sni). by rewrite index_slice_ge.
Qed.

(** [m] successive calls under one visiting order [rng], from a cursor in
    range: call number [i] returns entry [(c + i) mod n] of the list. *)
Lemma runOps_Next_cycle rng sni pool m :
  rng pool ≠ [] →
  ∀ config c,
    Backends config !! sni = Some pool →
    cursorOf config sni = Z.of_nat c →
    c < length (rng pool) →
    (runOps (replicate m (Next rng sni)) config).1
    = (λ i, Ret (rng pool !!! ((c + i) mod length (rng pool)))) <$> seq 0 m.
Proof.
  intros Hne. induction m as [|m IH]; intros config c Hpool Hc Hlt; [done|].
  cbn [replicate runOps].
  destruct (lookup_lt_is_Some_2 _ _ Hlt) as [b Hb].
  destruct (getNextBackendOf_in_range "SNI" rng config sni pool c b Hpool Hc Hb)
    as (config' & Hstep & Hbk & _ & Hc').
  unfold L4.getNextBackend. rewrite Hstep.
  assert (S c mod length (rng pool) < length (rng pool)) as Hlt'
    by (apply Nat.mod_upper_bound; lia).
  specialize (IH config' _ (eq_trans (f_equal (.!! sni) Hbk) Hpool) Hc' Hlt').
  destruct (runOps (replicate m (Next rng sni)) config') as [rs config''].
  cbn in IH |- *. subst rs. f_equal.
  - rewrite Nat.add_0_r, Nat.mod_small by done.
    by rewrite (list_lookup_total_correct _ _ _ Hb).
  - rewrite <- fmap_S_seq, <- list_fmap_compose. apply list_fmap_ext.
    intros _ i _. cbn. do 2 f_equal.
    rewrite Nat.Div0.add_mod_idemp_l. f_equal. lia.
Qed.

(** Any [n] consecutive numbers, reduced modulo [n], are [0 .. n-1] in some
    order. *)
Lemma mod_window_Permutation (n s : nat) :
  0 < n → (λ i, i mod n) <$> seq s n ≡ₚ seq 0 n.
Proof.
  intros Hn. induction s as [|s IH].
  - assert ((λ i, i mod n) <$> seq 0 n = seq 0 n) as ->; [|done].
    rewrite <- (list_fmap_id (seq 0 n)) at 2. apply list_fmap_ext.
    intros j i Hi. apply lookup_seq in Hi as [-> ?]. by apply Nat.mod_small.
  - rewrite <- IH. destruct n as [|n]; [lia|].
    rewrite seq_S. change (seq s (S n)) with (s :: seq (S s) n).
    rewrite fmap_app, fmap_cons. cbn [fmap list_fmap].
    rewrite <- Permutation_cons_append.
    replace ((S s + n) mod S n) with (s mod S n); [done|].
    replace (S s + n) with (s + 1 * S n) by lia. by rewrite Nat.Div0.mod_add.
Qed.

Lemma fmap_lookup_total_seq (l : list string) :
  (λ j, l !!! j) <$> seq 0 (length l) = l.
Proof.
  apply list_eq. intros i. rewrite list_lookup_fmap.
  destruct (decide (i < length l)) as [Hi|Hi].
  - rewrite lookup_seq_lt by done. cbn.
    by rewrite <- list_lookup_lookup_total_lt.
  - rewrite lookup_seq_ge by lia. by rewrite lookup_ge_None_2 by lia.
Qed.

(** One full turn of the cursor returns every entry of the list once. *)
Lemma cycle_window_Permutation (l : list string) (c : nat) :
  l ≠ [] →
  (λ i, Ret (l !!! ((c + i) mod length l))) <$> seq 0 (length l) ≡ₚ Ret <$> l.
Proof.
  intros Hne. assert (0 < length l) as Hn by (destruct l; [done|cbn; lia]).
  trans ((λ j, Ret (l !!! j)) <$> ((λ i, i mod length l) <$> seq c (length l))).
  - pose proof (fmap_add_seq c 0 (length l)) as E.
    rewrite Nat.add_0_r in E. rewrite <- E.
    by rewrite <- !list_fmap_compose.
  - rewrite (mod_window_Permutation (length l) c Hn).
    assert ((λ j, Ret (l !!! j)) <$> seq 0 (length l)
            = Ret <$> ((λ j, l !!! j) <$> seq 0 (length l))) as ->
      by (by rewrite <- list_fmap_compose).
    by rewrite fmap_lookup_total_seq.
Qed.

(** Over [k] full turns every entry of a duplicate-free list is returned
    exactly [k] times. *)
Lemma cycle_count (l : list string) (c k : nat) (b : string) :
  NoDup l → b ∈ l →
  count_occ Res_eq_dec
    ((λ i, Ret (l !!! ((c + i) mod length l))) <$> seq 0 (k * length l)) (Ret b)
  = k.
Proof.
  intros Hnd Hb. assert (l ≠ []) as Hne by (by destruct Hb).
  induction k as [|k IH]; [done|].
  change (S k * length l) with (length l + k * length l).
  rewrite seq_app, fmap_app, count_occ_app. cbn [Nat.add].
  pose proof (fmap_add_seq (length l) 0 (k * length l)) as E.
  rewrite Nat.add_0_r in E. rewrite <- E, <- list_fmap_compose. clear E.
  erewrite (list_fmap_ext _ _ (seq 0 (k * length l))); last first.
  { intros _ i _. cbn. replace (c + (length l + i)) with (c + i + 1 * length l) by lia.
    by rewrite Nat.Div0.mod_add. }
  rewrite IH.
  erewrite (proj1 (Permutation_count_occ Res_eq_dec _ _) (cycle_window_Permutation l c Hne)).
  assert (NoDup (Ret (A:=string) <$> l)) as Hnd'.
  { apply NoDup_fmap_2; [|done]. by intros ?? [= ->]. }
  apply NoDup_ListNoDup in Hnd'.
  rewrite (proj1 (NoDup_count_occ' Res_eq_dec _) Hnd'); [done|].
  apply list_elem_of_In, list_elem_of_fmap. eauto.
Qed.

(** C1, as the code has it.  For a fixed pool and a single-threaded caller,
    when every call's [Range] visits the pool in the same order and the cursor
    starts in range, call number [i] of [getNextBackend] returns entry
    [(c + i) mod n] of that visiting order: the calls cycle through it with
    period [n], the pool size, and over [k * n] calls every backend of the
    pool is returned exactly [k] times.  The order is the one [Range] visits
    the pool in; the pool does not record the order of registration. *)
Theorem round_robin_in_range_order
    (rng : RangeOrder) (config : Config) (sni : string)
    (pool : gmap string bool) (k : nat) :
  range_valid rng →
  Backends config !! sni = Some pool →
  pool ≠ ∅ →
  (0 ≤ cursorOf config sni < Z.of_nat (size pool))%Z →
  let backendList := rng pool in
  let n := length backendList in
  let c := Z.to_nat (cursorOf config sni) in
  let outs := (runOps (replicate (k * n) (Next rng sni)) config).1 in
  n = size pool
  ∧ length outs = k * n
  ∧ (∀ i, i < k * n → outs !! i = Ret <$> backendList !! ((c + i) mod n))
  ∧ (∀ i, i + n < k * n → outs !! (i + n) = outs !! i)
  ∧ (∀ b, is_Some (pool !! b) → count_occ Res_eq_dec outs (Ret b) = k).
Proof.
  intros Hv Hpool Hne Hc backendList n c outs.
  assert (n = size pool) as Hn by apply (range_valid_length _ _ Hv).
  assert (0 < n) as Hpos.
  { rewrite Hn. destruct (decide (size pool = 0)) as [H0|]; [|lia].
    by apply map_size_empty_iff in H0. }
  assert (backendList ≠ []) as Hne' by (intros E; subst n; rewrite E in Hpos; cbn in Hpos; lia).
  assert (outs = (λ i, Ret (backendList !!! ((c + i) mod n))) <$> seq 0 (k * n)) as Houts.
  { apply runOps_Next_cycle; [done..| |]; fold backendList; fold n; subst c; lia. }
  assert (∀ i, i < k * n → outs !! i = Ret <$> backendList !! ((c + i) mod n)) as Hith.
  { intros i Hi. rewrite Houts, list_lookup_fmap, lookup_seq_lt by done. cbn.
    rewrite (list_lookup_lookup_total_lt backendList ((c + i) mod n)); [done|].
    by apply Nat.mod_upper_bound, Nat.neq_0_lt_0. }
  split; [done|]. split; [by rewrite Houts, length_fmap, length_seq|].
  split; [done|]. split.
  - intros i Hi. rewrite !Hith by lia.
    replace (c + (i + n)) with (c + i + 1 * n) by lia. by rewrite Nat.Div0.mod_add.
  - intros b Hb. rewrite Houts. destruct (Hv pool) as [Hnd Hin].
    apply cycle_count; [done|]. by apply Hin.
Qed.

(** With A, B and C registered for selector h and [Range] visiting them as
    C, A, B, six calls return C, A, B, C, A, B: each backend twice. *)
Lemma round_robin_in_range_order_witness :
  let config := (runOps [Register "h" "A"; Register "h" "B"; Register "h" "C"] emptyConfig).2 in
  let outs := (runOps (replicate 6 (Next range_trie "h")) config).1 in
  outs = [Ret "C"; Ret "A"; Ret "B"; Ret "C"; Ret "A"; Ret "B"]
  ∧ (∀ b, b ∈ ["A"; "B"; "C"] → count_occ Res_eq_dec outs (Ret b) = 2).
Proof.
  intros config outs. split; [vm_compute; reflexivity|].
  intros b Hb.
  pose proof (round_robin_in_range_order range_trie config "h"
                (<["C" := true]> (<["B" := true]> (<["A" := true]> ∅))) 2
                range_trie_valid) as H.
  destruct H as (_ & _ & _ & _ & H).
  - vm_compute; reflexivity.
  - intros E. apply (f_equal (.!! "A")) in E. vm_compute in E. discriminate.
  - vm_compute. split; [discriminate|reflexivity].
  - apply H. rewrite !elem_of_cons, elem_of_nil in Hb.
    destruct Hb as [->|[->|[->|[]]]]; vm_compute; eauto.
Defined.

(** C1, as stated, fails: [Range] may visit the pool in an order other than
    the order of registration, and then the four calls do not return
    A, B, C, A. *)
Lemma round_robin_not_insertion_order :
  ¬ (∀ rng, range_valid rng →
       (runOps [Register "h" "A"; Register "h" "B"; Register "h" "C";
                Next rng "h"; Next rng "h"; Next rng "h"; Next rng "h"]
          emptyConfig).1
       = [Ret "A"; Ret "B"; Ret "C"; Ret "A"]).
Proof.
  intros H. specialize (H range_trie range_trie_valid).
  vm_compute in H. discriminate.
Qed.

(** When [Range] changes its visiting order between calls, the calls need
    not be fair: with A, B and C registered, three calls can return C, A, C. *)
Lemma round_robin_needs_stable_order :
  (runOps [Register "h" "A"; Register "h" "B"; Register "h" "C";
           Next range_trie "h"; Next range_trie_rev "h"; Next range_trie_rev "h"]
     emptyConfig).1
  = [Ret "C"; Ret "A"; Ret "C"].
Proof. vm_compute. reflexivity. Qed.

Lemma cursorOf_removeBackend config sni sni' backend :
  cursorOf (removeBackend config sni' backend) sni = cursorOf config sni.
Proof. unfold removeBackend. by destruct (Backends config !! sni'). Qed.

(** C2, at the failing call sequence.  Register A and B for selector h, call
    [getNextBackend] once (the cursor becomes 1), remove B, and call
    [getNextBackend] again: whatever order [Range] visits the pools in, the
    second call indexes a list of length 1 at position 1 and panics. *)
Theorem removeBackend_leaves_stale_cursor (rng1 rng2 : RangeOrder) :
  range_valid rng1 → range_valid rng2 →
  ∃ b,
    (runOps [Register "h" "A"; Register "h" "B"; Next rng1 "h";
             Deregister "h" "B"; Next rng2 "h"] emptyConfig).1
    = [Ret b; Panic "index out of range"].
Proof.
  intros Hv1 Hv2. cbn [runOps].
  set (config := addBackend (addBackend emptyConfig "h" "A") "h" "B").
  set (pool := <["B" := true]> (<["A" := true]> (∅ : gmap string bool))).
  assert (Backends config !! "h" = Some pool) as Hpool by (vm_compute; reflexivity).
  assert (length (rng1 pool) = 2) as Hlen1.
  { rewrite (range_valid_length _ _ Hv1). vm_compute; reflexivity. }
  destruct (rng1 pool) as [|b l1] eqn:Hl1; [done|].
  destruct (getNextBackendOf_in_range "SNI" rng1 config "h" pool 0 b Hpool)
    as (config' & Hstep & Hbk & _ & Hc'); [done|by rewrite Hl1|].
  rewrite Hl1, Hlen1 in Hc'. change (Z.of_nat (1 mod 2)) with 1%Z in Hc'.
  exists b. unfold L4.getNextBackend. rewrite Hstep.
  set (config'' := removeBackend config' "h" "B").
  assert (Backends config'' !! "h" = Some (delete "B" pool)) as Hpool''.
  { unfold config'', removeBackend. rewrite Hbk, Hpool. cbn.
    by rewrite lookup_insert_eq. }
  assert (length (rng2 (delete "B" pool)) = 1) as Hlen2.
  { rewrite (range_valid_length _ _ Hv2). vm_compute; reflexivity. }
  pose proof (getNextBackendOf_stale "SNI" rng2 config'' "h" _ Hpool'') as Hpanic.
  destruct (getNextBackendOf "SNI" rng2 config'' "h") as [r config3].
  cbn in Hpanic |- *. rewrite Hpanic; [done| |].
  - intros E. by rewrite E in Hlen2.
  - unfold config''. rewrite cursorOf_removeBackend, Hc', Hlen2. done.
Qed.

Lemma removeBackend_leaves_stale_cursor_witness :
  ∃ b,
    (runOps [Register "h" "A"; Register "h" "B"; Next range_trie "h";
             Deregister "h" "B"; Next range_trie_rev "h"] emptyConfig).1
    = [Ret b; Panic "index out of range"].
Proof.
  exact (removeBackend_leaves_stale_cursor range_trie range_trie_rev
           range_trie_valid range_trie_rev_valid).
Defined.

(** C9.  Registering the same (selector, backend) pair twice leaves the
    configuration as one registration does; registering into an absent
    selector creates its pool, holding just that backend; and after the pair
    is registered twice into an empty registry the pool has size 1. *)
Theorem addBackend_idempotent (config : Config) (sni backend : string) :
  addBackend (addBackend config sni backend) sni backend
  = addBackend config sni backend
  ∧ (Backends config !! sni = None →
     Backends (addBackend config sni backend) !! sni = Some {[backend := true]})
  ∧ (∃ pool,
       Backends (addBackend (addBackend emptyConfig sni backend) sni backend) !! sni
       = Some pool ∧ size pool = 1 ∧ pool !! backend = Some true).
Proof.
  split; [|split].
  - unfold addBackend. cbn. rewrite lookup_insert_eq. cbn.
    by rewrite !insert_insert_eq.
  - intros Habsent. unfold addBackend. cbn. rewrite lookup_insert_eq, Habsent.
    done.
  - exists {[backend := true]}. unfold addBackend. cbn.
    rewrite !lookup_insert_eq. cbn. rewrite lookup_empty. cbn.
    rewrite insert_insert_eq. split; [done|].
    split; [apply map_size_singleton|apply lookup_singleton_eq].
Qed.

Lemma addBackend_idempotent_witness :
  addBackend (addBackend emptyConfig "h" "A") "h" "A" = addBackend emptyConfig "h" "A"
  ∧ Backends (addBackend emptyConfig "h" "A") !! "h" = Some {["A" := true]}.
Proof.
  destruct (addBackend_idempotent emptyConfig "h" "A") as (Hidem & Hnew & _).
  split; [exact Hidem|]. apply Hnew. reflexivity.
Defined.

(** *** Without [removeBackend] the cursor stays in range *)

Lemma cursor_in_range_empty : cursor_in_range emptyConfig.
Proof. intros sni c Hc. cbn in Hc. by rewrite lookup_empty in Hc. Qed.

Lemma cursor_in_range_addBackend config sni backend :
  cursor_in_range config → cursor_in_range (addBackend config sni backend).
Proof.
  intros Hinv sni' c Hc. cbn in Hc. destruct (Hinv sni' c Hc) as (pool & Hpool & Hrange).
  destruct (decide (sni = sni')) as [<-|Hne].
  - exists (<[backend := true]> pool). cbn. rewrite lookup_insert_eq, Hpool. cbn.
    split; [done|].
    destruct (pool !! backend) as [v|] eqn:Hb.
    + rewrite map_size_insert_Some by done. done.
    + rewrite map_size_insert_None by done. lia.
  - exists pool. cbn. by rewrite lookup_insert_ne.
Qed.

Lemma cursor_in_range_getNextBackendOf what rng config sni :
  range_valid rng → cursor_in_range config →
  cursor_in_range (getNextBackendOf what rng config sni).2
  ∧ ∀ msg, (getNextBackendOf what rng config sni).1 ≠ Panic msg.
Proof.
  intros Hv Hinv. unfold getNextBackendOf.
  destruct (Backends config !! sni) as [pool|] eqn:Hpool; [|done].
  cbn zeta. case_bool_decide as Hlen; [done|].
  pose proof (range_valid_length rng pool Hv) as Hsize.
  assert (0 ≤ default 0%Z (BackendIndices config !! sni)
          < Z.of_nat (length (rng pool)))%Z as Hidx.
  { destruct (BackendIndices config !! sni) as [c|] eqn:Hc; cbn; [|lia].
    destruct (Hinv sni c Hc) as (pool' & Hpool' & Hrange). simplify_eq. lia. }
  destruct (lookup_lt_is_Some_2 (rng pool)
              (Z.to_nat (default 0%Z (BackendIndices config !! sni))))
    as [b Hb]; [lia|].
  unfold index_slice. rewrite bool_decide_eq_true_2 by lia. rewrite Hb. cbn.
  split; [|done].
  intros sni' c Hc. cbn in Hc.
  destruct (decide (sni = sni')) as [<-|Hne].
  - rewrite lookup_insert_eq in Hc. simplify_eq. exists pool. split; [done|].
    rewrite <- Hsize. apply Z.rem_bound_pos; lia.
  - rewrite lookup_insert_ne in Hc by done. apply Hinv.
    destruct (BackendIndices config !! sni); [done|].
    by rewrite lookup_insert_ne in Hc.
Qed.

(** A sequence of registrations and selections, without removals, never
    reads a cursor that is out of range: no selection panics. *)
Lemma runOps_no_removal (ops : list RegistryOp) :
  Forall no_removal ops →
  ∀ config, cursor_in_range config →
    cursor_in_range (runOps ops config).2
    ∧ Forall (λ r, ∀ msg, r ≠ Panic msg) (runOps ops config).1.
Proof.
  induction 1 as [|op ops Hop _ IH]; intros config Hinv; [by split|].
  destruct op as [sni b|sni b|rng sni]; cbn in Hop |- *; [|done|].
  - apply IH. by apply cursor_in_range_addBackend.
  - destruct (cursor_in_range_getNextBackendOf "SNI" rng config sni Hop Hinv)
      as [Hinv' Hnopanic].
    unfold L4.getNextBackend.
    destruct (getNextBackendOf "SNI" rng config sni) as [r config'].
    destruct (IH config' Hinv') as [Hinv'' Hrs].
    destruct (runOps ops config') as [rs config'']. cbn in *.
    split; [done|]. by constructor.
Qed.


(** ** The SNI parser *)

Module SNIFacts.
Import SNI.
Local Open Scope Z_scope.

(** Rewrite the first read [at_ data z] of the goal with [lem], a lemma
    that locates [z] in the data, and step over the [bind]. *)
Tactic Notation "read" open_constr(lem) :=
  erewrite lem; [|first [reflexivity | lia]..]; cbn [bind].

Lemma int_range (b : ascii) : 0 ≤ int b < 256.
Proof.
  unfold int. pose proof (N_ascii_bounded b). lia.
Qed.

Lemma int_byte (n : Z) : 0 ≤ n < 256 → int (byte n) = n.
Proof.
  intros Hn. unfold int, byte. rewrite N_ascii_embedding by lia. lia.
Qed.

Lemma be16_add (hi lo : Z) : 0 ≤ lo < 256 → be16 hi lo = hi * 256 + lo.
Proof.
  intros Hlo. unfold be16.
  assert (Z.land (Z.shiftl hi 8) lo = 0) as Hland.
  { apply Z.bits_inj'. intros n Hn. rewrite Z.land_spec, Z.bits_0.
    destruct (Z.lt_ge_cases n 8) as [Hlt|Hge].
    - by rewrite Z.shiftl_spec_low.
    - rewrite <- (Z.mod_small lo (2 ^ 8)) by lia.
      rewrite Z.mod_pow2_bits_high by lia. apply andb_false_r. }
  rewrite <- Z.lxor_lor, <- Z.add_nocarry_lxor by done.
  by rewrite Z.shiftl_mul_pow2.
Qed.

Lemma be16_nonneg (hi lo : Z) : 0 ≤ hi → 0 ≤ lo < 256 → 0 ≤ be16 hi lo.
Proof. intros. rewrite be16_add by done. lia. Qed.

Lemma be16_u16 (n : Z) :
  0 ≤ n < 65536 → be16 (int (byte (n / 256))) (int (byte (n mod 256))) = n.
Proof.
  intros Hn.
  assert (0 ≤ n / 256 < 256) by (split; [apply Z.div_pos|apply Z.div_lt_upper_bound]; lia).
  assert (0 ≤ n mod 256 < 256) by (apply Z.mod_pos_bound; lia).
  rewrite !int_byte, be16_add by done.
  rewrite (Z.div_mod n 256) at 3 by lia. lia.
Qed.

Lemma len_app (l1 l2 : list ascii) : len (l1 ++ l2) = len l1 + len l2.
Proof. unfold len. rewrite List.length_app. lia. Qed.

Lemma len_cons (b : ascii) (l : list ascii) : len (b :: l) = 1 + len l.
Proof. unfold len. cbn [length]. lia. Qed.

Lemma len_nonneg (l : list ascii) : 0 ≤ len l.
Proof. unfold len. lia. Qed.

(** Reading inside the bounds. *)
Lemma at_lookup (data : list ascii) (i : nat) (b : ascii) (z : Z) :
  data !! i = Some b → z = Z.of_nat i → at_ data z = Ret (int b).
Proof.
  intros Hb ->. unfold at_. rewrite bool_decide_eq_true_2 by lia.
  by rewrite Nat2Z.id, Hb.
Qed.

Lemma at_app (P Q : list ascii) (j : nat) (b : ascii) (z : Z) :
  Q !! j = Some b → z = len P + Z.of_nat j → at_ (P ++ Q) z = Ret (int b).
Proof.
  intros Hb ->. apply (at_lookup _ (length P + j)%nat); [|unfold len; lia].
  rewrite lookup_app_r by lia. by replace (length P + j - length P)%nat with j by lia.
Qed.

Lemma at_cases (data : list ascii) (z : Z) :
  (∃ v, at_ data z = Ret v ∧ 0 ≤ v < 256 ∧ 0 ≤ z < len data)
  ∨ (∃ msg, at_ data z = Panic msg).
Proof.
  unfold at_. case_bool_decide; [|eauto].
  destruct (data !! Z.to_nat z) as [b|] eqn:Hb; [|eauto].
  left. exists (int b). split; [done|]. split; [apply int_range|].
  apply lookup_lt_Some in Hb. unfold len. lia.
Qed.

Lemma slice_string_app (P R : list ascii) (name : string) (lo hi : Z) :
  lo = len P → hi = len P + len (list_ascii_of_string name) →
  slice_string (P ++ list_ascii_of_string name ++ R) lo hi = Ret name.
Proof.
  intros -> ->. unfold slice_string.
  rewrite bool_decide_eq_true_2.
  - f_equal. unfold len. rewrite Nat2Z.id.
    rewrite drop_app_length.
    replace (Z.to_nat (Z.of_nat (length P) + Z.of_nat (length (list_ascii_of_string name))
                       - Z.of_nat (length P)))
      with (length (list_ascii_of_string name)) by lia.
    rewrite take_app_length. apply string_of_list_ascii_of_string.
  - rewrite !len_app. pose proof (len_nonneg P).
    pose proof (len_nonneg (list_ascii_of_string name)). pose proof (len_nonneg R). lia.
Qed.

Lemma len_u16 (n : Z) : len (u16 n) = 2.
Proof. done. Qed.

Lemma len_encodeExtension (e : Extension) :
  len (encodeExtension e) = 4 + len (ext_data e).
Proof. unfold encodeExtension. rewrite !len_app, !len_u16. lia. Qed.

Lemma encodeExtensions_cons (e : Extension) (es : list Extension) :
  encodeExtensions (e :: es) = encodeExtension e ++ encodeExtensions es.
Proof. done. Qed.

(** The loop over the extensions reaches the first [server_name] extension
    and returns its host name. *)
Lemma walkExtensions_finds_sni (name : string) (more : list ascii)
    (after : list Extension) (R : list ascii) (before : list Extension) :
  len (ext_data (serverNameExtension name more)) < 65536 →
  Forall (λ e, ext_type e ≠ 0 ∧ wf_extension e) before →
  ∀ (fuel : nat) (P : list ascii),
    (length before < fuel)%nat →
    walkExtensions fuel
      (P ++ encodeExtensions (before ++ serverNameExtension name more :: after) ++ R)
      (len P)
      (len P + len (encodeExtensions (before ++ serverNameExtension name more :: after)))
    = Ret name.
Proof.
  intros Hsne Hbefore. induction Hbefore as [|e before [Hty [Hty' Hlen]] _ IH];
    intros fuel P Hfuel; (destruct fuel as [|fuel]; [cbn in Hfuel; lia|]).
  - cbn [app]. rewrite encodeExtensions_cons, len_app, len_encodeExtension.
    set (name_bytes := list_ascii_of_string name) in *.
    assert (len name_bytes + len more + 5 = len (ext_data (serverNameExtension name more)))
      as Hd.
    { cbn [serverNameExtension ext_data]. fold name_bytes.
      rewrite !len_app, !len_cons, !len_app, !len_u16. lia. }
    pose proof (len_nonneg name_bytes). pose proof (len_nonneg more).
    pose proof (len_nonneg (encodeExtensions after)).
    unfold encodeExtension.
    set (L := len (ext_data (serverNameExtension name more))) in *.
    cbn [serverNameExtension ext_type ext_data]. fold name_bytes.
    rewrite <- !app_assoc. cbn [u16 app]. rewrite <- !app_assoc. cbn [app].
    match goal with
    | |- walkExtensions _ (P ++ ?Q) _ _ = _ =>
        remember Q as Q0 eqn:HQ;
        assert (∀ j b z, Q !! j = Some b → z = len P + Z.of_nat j →
                         at_ (P ++ Q0) z = Ret (int b)) as Hat
          by (subst Q0; apply at_app)
    end.
    cbn [walkExtensions]. rewrite bool_decide_eq_true_2 by lia.
    read (Hat 0%nat).
    read (Hat 1%nat).
    read (Hat 2%nat).
    read (Hat 3%nat).
    rewrite !be16_u16 by lia.
    rewrite bool_decide_eq_false_2 by lia.
    rewrite bool_decide_eq_true_2 by done.
    read (Hat 7%nat).
    read (Hat 8%nat).
    rewrite be16_u16 by lia.
    rewrite bool_decide_eq_false_2 by lia.
    subst Q0.
    match goal with
    | |- slice_string (P ++ ?a0 :: ?a1 :: ?a2 :: ?a3 :: ?a4 :: ?a5 :: ?a6 :: ?a7 :: ?a8 :: ?rest) _ _ = _ =>
        change (P ++ a0 :: a1 :: a2 :: a3 :: a4 :: a5 :: a6 :: a7 :: a8 :: rest)
          with (P ++ [a0; a1; a2; a3; a4; a5; a6; a7; a8] ++ rest);
        rewrite (app_assoc P [a0; a1; a2; a3; a4; a5; a6; a7; a8])
    end.
    subst name_bytes.
    apply slice_string_app; rewrite len_app, !len_cons; change (len []) with 0; lia.
  - cbn [app]. rewrite encodeExtensions_cons, len_app, len_encodeExtension.
    pose proof (len_nonneg (ext_data e)).
    pose proof (len_nonneg
      (encodeExtensions (before ++ serverNameExtension name more :: after))).
    specialize (IH fuel (P ++ encodeExtension e)).
    rewrite len_app, len_encodeExtension, <- !app_assoc in IH.
    unfold encodeExtension in IH |- *.
    rewrite <- !app_assoc in IH |- *. cbn [u16 app] in IH |- *.
    match goal with
    | |- walkExtensions _ (P ++ ?Q) _ _ = _ =>
        remember Q as Q0 eqn:HQ;
        assert (∀ j b z, Q !! j = Some b → z = len P + Z.of_nat j →
                         at_ (P ++ Q0) z = Ret (int b)) as Hat
          by (subst Q0; apply at_app)
    end.
    cbn [walkExtensions]. rewrite bool_decide_eq_true_2 by lia.
    read (Hat 0%nat).
    read (Hat 1%nat).
    read (Hat 2%nat).
    read (Hat 3%nat).
    rewrite !be16_u16 by lia.
    rewrite bool_decide_eq_false_2 by lia.
    rewrite bool_decide_eq_false_2 by done.
    replace (len P + 4 + len (ext_data e)) with (len P + (4 + len (ext_data e))) by lia.
    replace (len P + (4 + len (ext_data e)
                      + len (encodeExtensions (before ++ serverNameExtension name more :: after))))
      with (len P + (4 + len (ext_data e))
            + len (encodeExtensions (before ++ serverNameExtension name more :: after)))
      by lia.
    apply IH. cbn in Hfuel. lia.
Qed.

Lemma at_split (data P Q : list ascii) (j : nat) (b : ascii) (z : Z) :
  data = P ++ Q → Q !! j = Some b → z = len P + Z.of_nat j →
  at_ data z = Ret (int b).
Proof. intros -> Hb Hz. by eapply at_app. Qed.

Lemma length_encodeExtensions (es : list Extension) :
  (length es ≤ length (encodeExtensions es))%nat.
Proof.
  induction es as [|e es IH]; [done|].
  rewrite encodeExtensions_cons, List.length_app. cbn. lia.
Qed.

Lemma carries_sni_wf (ch : ClientHello) (name : string) before more after :
  Forall wf_extension (extensions ch) →
  extensions ch = before ++ serverNameExtension name more :: after →
  Forall (λ e, ext_type e ≠ 0) before →
  len (ext_data (serverNameExtension name more)) < 65536
  ∧ Forall (λ e, ext_type e ≠ 0 ∧ wf_extension e) before.
Proof.
  intros Hwf Hexts Hbefore. rewrite Hexts in Hwf.
  apply Forall_app in Hwf as [Hwf1 Hwf2]. apply Forall_cons in Hwf2 as [[_ Hsne] _].
  split; [done|]. apply Forall_and. by split.
Qed.

(** The record of a well-formed ClientHello, followed by any bytes, parses
    to the host name it carries. *)
Lemma parse_tlsRecord (ch : ClientHello) (name : string) (trailing : list ascii) :
  wf_hello ch → carries_sni ch name →
  parseTLSClientHello (tlsRecord ch ++ trailing) = Ret name.
Proof.
  intros (Hminor & Hrandom & Hsid & Hcs & Hcm & Hexts & Hextlen & Hhs)
         (before & more & after & Hcarry & Hbefore).
  destruct (carries_sni_wf ch name before more after Hexts Hcarry Hbefore)
    as [Hsne Hbefore'].
  remember (tlsRecord ch ++ trailing) as data eqn:Hdata.
  set (exts := encodeExtensions (extensions ch)) in *.
  set (Q4 := u16 (len exts) ++ exts ++ trailing).
  set (Q3 := byte (len (compression_methods ch)) :: compression_methods ch ++ Q4).
  set (Q2 := u16 (len (cipher_suites ch)) ++ cipher_suites ch ++ Q3).
  set (Q1 := byte (len (session_id ch)) :: session_id ch ++ Q2).
  set (H := len (handshakeMessage ch)) in *.
  set (B := len (helloBody ch)).
  set (P1 := [byte 22; byte 3; byte (record_minor ch); byte (H / 256); byte (H mod 256);
              byte 1; byte (B / 65536); byte (B / 256 mod 256); byte (B mod 256);
              (legacy_version ch).1; (legacy_version ch).2] ++ random ch).
  set (P2 := P1 ++ byte (len (session_id ch)) :: session_id ch).
  set (P3 := P2 ++ u16 (len (cipher_suites ch)) ++ cipher_suites ch).
  set (P4 := P3 ++ byte (len (compression_methods ch)) :: compression_methods ch).
  assert (data = P1 ++ Q1) as E1.
  { subst data P1 Q1 Q2 Q3 Q4. unfold tlsRecord, handshakeMessage, helloBody, helloTail.
    fold exts H B. cbn [u16 u24 app].
    repeat (rewrite <- ?app_assoc; cbn [app]). reflexivity. }
  assert (∃ R0, data = [] ++ byte 22 :: byte 3 :: byte (record_minor ch) :: byte (H / 256)
                          :: byte (H mod 256) :: byte 1 :: R0) as [R0 E0].
  { eexists. rewrite E1. subst P1. cbn [app]. reflexivity. }
  assert (data = P2 ++ Q2) as E2.
  { rewrite E1. subst P2 Q1. by rewrite <- app_assoc. }
  assert (data = P3 ++ Q3) as E3.
  { rewrite E2. subst P3 Q2. by rewrite <- !app_assoc. }
  assert (data = P4 ++ Q4) as E4.
  { rewrite E3. subst P4 Q3. by rewrite <- !app_assoc. }
  assert (data = (P4 ++ u16 (len exts)) ++ exts ++ trailing) as E5.
  { rewrite E4. subst Q4. by rewrite <- !app_assoc. }
  assert (len P1 = 43) as L1.
  { subst P1. rewrite len_app. unfold len at 2. rewrite Hrandom. done. }
  assert (len P2 = 44 + len (session_id ch)) as L2.
  { subst P2. rewrite len_app, len_cons. lia. }
  assert (len P3 = 46 + len (session_id ch) + len (cipher_suites ch)) as L3.
  { subst P3. rewrite !len_app, len_u16. lia. }
  assert (len P4 = 47 + len (session_id ch) + len (cipher_suites ch)
                   + len (compression_methods ch)) as L4.
  { subst P4. rewrite len_app, len_cons. lia. }
  assert (len data = len P4 + 2 + len exts + len trailing) as Ldata.
  { rewrite E5, !len_app, len_u16. lia. }
  assert (len data = 5 + H + len trailing) as LH.
  { rewrite Hdata, len_app. unfold tlsRecord.
    rewrite !len_cons, len_app, len_u16. fold H. lia. }
  pose proof (len_nonneg (session_id ch)). pose proof (len_nonneg (cipher_suites ch)).
  pose proof (len_nonneg (compression_methods ch)). pose proof (len_nonneg exts).
  pose proof (len_nonneg trailing).
  clearbody P1 P2 P3 P4. clear Hdata.
  unfold parseTLSClientHello.
  rewrite bool_decide_eq_false_2 by lia.
  assert (0 ≤ H / 256 < 256) by (split; [apply Z.div_pos|apply Z.div_lt_upper_bound]; lia).
  read (at_split data [] _ 0 _ _ E0).
  rewrite int_byte, bool_decide_eq_false_2 by lia.
  read (at_split data [] _ 1 _ _ E0).
  rewrite int_byte, bool_decide_eq_false_2 by lia.
  read (at_split data [] _ 2 _ _ E0).
  rewrite int_byte, bool_decide_eq_false_2 by lia.
  read (at_split data [] _ 3 _ _ E0).
  read (at_split data [] _ 4 _ _ E0).
  rewrite be16_u16, bool_decide_eq_false_2 by lia.
  read (at_split data [] _ 5 _ _ E0).
  rewrite int_byte, bool_decide_eq_false_2 by lia.
  rewrite bool_decide_eq_false_2 by lia.
  read (at_split data P1 _ 0 _ _ E1).
  rewrite int_byte, bool_decide_eq_false_2 by lia.
  read (at_split data P2 _ 0 _ _ E2).
  read (at_split data P2 _ 1 _ _ E2).
  rewrite be16_u16, bool_decide_eq_false_2 by lia.
  read (at_split data P3 _ 0 _ _ E3).
  rewrite int_byte, bool_decide_eq_false_2 by lia.
  read (at_split data P4 _ 0 _ _ E4).
  read (at_split data P4 _ 1 _ _ E4).
  rewrite be16_u16, bool_decide_eq_false_2 by lia.
  rewrite E5. subst exts. rewrite Hcarry.
  replace (43 + (1 + len (session_id ch)) + (2 + len (cipher_suites ch))
           + (1 + len (compression_methods ch)) + 2)
    with (len (P4 ++ u16 (len (encodeExtensions (extensions ch)))))
    by (rewrite len_app, len_u16; lia).
  rewrite Hcarry.
  apply walkExtensions_finds_sni; [done..|].
  rewrite !List.length_app.
  pose proof (length_encodeExtensions (before ++ serverNameExtension name more :: after)) as Hle.
  rewrite List.length_app in Hle. cbn [length] in Hle |- *. lia.
Qed.

(** Every strict prefix of the record is rejected with an error: it is too
    short for a record header, or shorter than the record length says. *)
Lemma parse_prefix (ch : ClientHello) (n : nat) :
  wf_hello ch → (n < length (tlsRecord ch))%nat →
  parseTLSClientHello (take n (tlsRecord ch)) = Fail "data too short for TLS handshake"
  ∨ parseTLSClientHello (take n (tlsRecord ch)) = Fail "incomplete handshake record".
Proof.
  intros (Hminor & _ & _ & _ & _ & _ & _ & Hhs) Hn.
  set (H := len (handshakeMessage ch)) in *.
  pose proof (len_nonneg (handshakeMessage ch)) as HH. fold H in HH.
  assert (length (tlsRecord ch) = (5 + length (handshakeMessage ch))%nat) as Hlen.
  { unfold tlsRecord. cbn [length u16 app]. lia. }
  assert (len (take n (tlsRecord ch)) = Z.of_nat n) as Hlp.
  { unfold len. rewrite length_take. lia. }
  unfold parseTLSClientHello. rewrite Hlp.
  destruct (decide (n < 5)%nat) as [Hshort|Hlong].
  { left. by rewrite bool_decide_eq_true_2 by lia. }
  right. rewrite bool_decide_eq_false_2 by lia.
  assert (∀ j b z, (j < 5)%nat → tlsRecord ch !! j = Some b → z = Z.of_nat j →
                   at_ (take n (tlsRecord ch)) z = Ret (int b)) as Hat.
  { intros j b z Hj Hb ->. eapply at_lookup; [|done]. rewrite lookup_take_lt by lia. done. }
  assert (0 ≤ H / 256 < 256) by (split; [apply Z.div_pos|apply Z.div_lt_upper_bound]; lia).
  read (Hat 0%nat).
  rewrite int_byte, bool_decide_eq_false_2 by lia.
  read (Hat 1%nat).
  rewrite int_byte, bool_decide_eq_false_2 by lia.
  read (Hat 2%nat).
  rewrite int_byte, bool_decide_eq_false_2 by lia.
  read (Hat 3%nat).
  read (Hat 4%nat).
  fold H. rewrite be16_u16 by lia.
  rewrite bool_decide_eq_true_2; [done|]. unfold H, len. lia.
Qed.

(** *** The loop budget is enough *)

Lemma bind_at_not_OutOfFuel (data : list ascii) (z : Z) (k : Z → Res string) :
  (∀ v, 0 ≤ v < 256 → 0 ≤ z < len data → k v ≠ OutOfFuel) →
  bind (at_ data z) k ≠ OutOfFuel.
Proof.
  intros Hk. destruct (at_cases data z) as [(v & -> & Hv & Hz)|(msg & ->)]; cbn; [|done].
  by apply Hk.
Qed.

Lemma slice_string_not_OutOfFuel (data : list ascii) (lo hi : Z) :
  slice_string data lo hi ≠ OutOfFuel.
Proof. unfold slice_string. by case_bool_decide. Qed.

Lemma walkExtensions_not_OutOfFuel (data : list ascii) (end_ : Z) (fuel : nat) :
  ∀ offset, (0 < fuel)%nat → end_ - offset < 4 * Z.of_nat fuel →
    walkExtensions fuel data offset end_ ≠ OutOfFuel.
Proof.
  induction fuel as [|fuel IH]; intros offset Hpos Hfuel; [lia|].
  cbn [walkExtensions]. case_bool_decide as Hturn; [|done].
  apply bind_at_not_OutOfFuel; intros t0 Ht0 _.
  apply bind_at_not_OutOfFuel; intros t1 Ht1 _.
  apply bind_at_not_OutOfFuel; intros l0 Hl0 _.
  apply bind_at_not_OutOfFuel; intros l1 Hl1 _.
  pose proof (be16_nonneg l0 l1 ltac:(lia) Hl1) as Hlen.
  case_bool_decide as Hover; [done|].
  case_bool_decide as Hty.
  - apply bind_at_not_OutOfFuel; intros s0 Hs0 _.
    apply bind_at_not_OutOfFuel; intros s1 Hs1 _.
    case_bool_decide; [done|]. apply slice_string_not_OutOfFuel.
  - apply IH; lia.
Qed.

(** The parser returns on every input: a host name, an error or a panic. *)
Lemma parseTLSClientHello_terminates (data : list ascii) :
  parseTLSClientHello data ≠ OutOfFuel.
Proof.
  unfold parseTLSClientHello.
  case_bool_decide as Hlen; [done|].
  apply bind_at_not_OutOfFuel; intros d0 _ _. case_bool_decide; [done|].
  apply bind_at_not_OutOfFuel; intros d1 _ _. case_bool_decide; [done|].
  apply bind_at_not_OutOfFuel; intros d2 _ _. case_bool_decide; [done|].
  apply bind_at_not_OutOfFuel; intros d3 Hd3 _.
  apply bind_at_not_OutOfFuel; intros d4 Hd4 _. case_bool_decide; [done|].
  apply bind_at_not_OutOfFuel; intros ht _ _. case_bool_decide; [done|].
  case_bool_decide; [done|].
  apply bind_at_not_OutOfFuel; intros sid Hsid _. case_bool_decide; [done|].
  apply bind_at_not_OutOfFuel; intros c0 Hc0 _.
  apply bind_at_not_OutOfFuel; intros c1 Hc1 _. case_bool_decide; [done|].
  apply bind_at_not_OutOfFuel; intros cm Hcm _. case_bool_decide; [done|].
  apply bind_at_not_OutOfFuel; intros e0 He0 _.
  apply bind_at_not_OutOfFuel; intros e1 He1 _. case_bool_decide; [done|].
  pose proof (be16_nonneg c0 c1 ltac:(lia) Hc1).
  pose proof (be16_nonneg e0 e1 ltac:(lia) He1).
  apply walkExtensions_not_OutOfFuel; unfold len in *; lia.
Qed.

(** C3, as the code has it.  For every well-formed ClientHello record whose
    [server_name] list has the host name [name] as its first entry, followed
    by any further bytes, [parseTLSClientHello] returns exactly [name]; and
    on every strict prefix of the record it returns an error, the one for a
    short read or the one for an incomplete record, never a string. *)
Theorem parseTLSClientHello_roundtrip
    (ch : ClientHello) (name : string) (trailing : list ascii) :
  wf_hello ch → carries_sni ch name →
  parseTLSClientHello (tlsRecord ch ++ trailing) = Ret name
  ∧ ∀ n : nat, (n < length (tlsRecord ch))%nat →
      parseTLSClientHello (take n (tlsRecord ch))
      = Fail "data too short for TLS handshake"
      ∨ parseTLSClientHello (take n (tlsRecord ch))
        = Fail "incomplete handshake record".
Proof.
  intros Hwf Hsni. split; [by apply parse_tlsRecord|].
  intros n Hn. by apply parse_prefix.
Qed.

Lemma demoHello_wf : wf_hello demoHello.
Proof.
  unfold wf_hello. split; [by left|]. split; [reflexivity|].
  split; [unfold len; cbn; lia|]. split; [unfold len; cbn; lia|].
  split; [unfold len; cbn; lia|]. split.
  - repeat constructor; unfold len; cbn; lia.
  - split; vm_compute; [reflexivity|discriminate].
Qed.

Lemma demoHello_carries : carries_sni demoHello "svc.test".
Proof.
  exists [mkExtension 10 [byte 0; byte 2; byte 0; byte 29]], [], [mkExtension 11 [byte 1; byte 0]].
  split; [reflexivity|]. repeat constructor. done.
Qed.

Lemma parseTLSClientHello_roundtrip_witness :
  parseTLSClientHello (tlsRecord demoHello) = Ret "svc.test"
  ∧ parseTLSClientHello (take 60 (tlsRecord demoHello))
    = Fail "incomplete handshake record".
Proof.
  destruct (parseTLSClientHello_roundtrip demoHello "svc.test" []
              demoHello_wf demoHello_carries) as [Hparse Hprefix].
  rewrite app_nil_r in Hparse. split; [exact Hparse|].
  destruct (Hprefix 60%nat) as [H|H].
  - vm_compute. lia.
  - vm_compute in H. discriminate.
  - exact H.
Defined.

(** A list that starts with a host-name entry is the extension that
    [carries_sni] asks for, the other entries being its [more]. *)
Lemma serverNameList_host_first (name : string) (others : list ServerName) :
  serverNameList (mkServerName 0 name :: others)
  = serverNameExtension name (encodeServerNames others).
Proof.
  unfold serverNameList, serverNameExtension, encodeServerNames.
  cbn [fmap list_fmap concat]. f_equal.
  unfold encodeServerName. cbn [name_type server_name].
  rewrite len_app, len_cons, len_app, len_u16.
  cbn [app]. rewrite <- app_assoc. f_equal. f_equal. lia.
Qed.

(** On a list that starts with the host-name entry the specification's
    reading and [carries_sni] name the same host. *)
Lemma host_first_carries_sni (ch : ClientHello) (name : string)
    (others : list ServerName) (before after : list Extension) :
  extensions ch = before ++ serverNameList (mkServerName 0 name :: others) :: after →
  Forall (λ e, ext_type e ≠ 0) before →
  spec_sni ch (mkServerName 0 name :: others) name ∧ carries_sni ch name.
Proof.
  intros Hexts Hbefore. split.
  - exists before, after. by repeat split.
  - exists before, (encodeServerNames others), after.
    by rewrite <- serverNameList_host_first.
Qed.

(** C3, as stated, fails: [twoNamesHello] is a well-formed ClientHello whose
    [server_name] list holds the entry [(1, foo)] before the host-name entry
    [(0, svc.test)].  Its host name is [svc.test], and the parser, which
    does not read [name_type], returns [foo]. *)
Lemma parseTLSClientHello_returns_first_entry :
  wf_hello twoNamesHello
  ∧ spec_sni twoNamesHello twoNames "svc.test"
  ∧ parseTLSClientHello (tlsRecord twoNamesHello) = Ret "foo"
  ∧ parseTLSClientHello (tlsRecord twoNamesHello) ≠ Ret "svc.test".
Proof.
  split; [|split; [|split]].
  - unfold wf_hello. split; [by left|]. split; [reflexivity|].
    split; [unfold len; cbn; lia|]. split; [unfold len; cbn; lia|].
    split; [unfold len; cbn; lia|]. split.
    + repeat constructor; unfold len; cbn; lia.
    + split; vm_compute; [reflexivity|discriminate].
  - exists [], []. split; [reflexivity|]. split; [constructor|].
    vm_compute. reflexivity.
  - vm_compute. reflexivity.
  - vm_compute. discriminate.
Qed.

(** The encoder produces the captured bytes, and the parser reads the host
    name back from them. *)
Lemma capturedHello_parses :
  tlsRecord capturedHello = capturedBytes
  ∧ parseTLSClientHello capturedBytes = Ret "example.ulfheim.net".
Proof. split; vm_compute; reflexivity. Qed.

(** C10, at failing inputs.  The bounds checks compare with [<], so an
    offset equal to the length passes them and the next index expression
    panics: on a 5-byte record header announcing an empty record, at
    [data[5]]; on the 253 bytes that [extractSNI] peeks, when the session-id
    length byte moves the offset to 253, at [data[253]]; and on a
    [server_name] extension that ends the input, at [data[offset+3]]. *)
Theorem parseTLSClientHello_index_out_of_range :
  parseTLSClientHello emptyRecordHeader = Panic "index out of range"
  ∧ length sessionOverrun = peekSize
  ∧ parseTLSClientHello sessionOverrun = Panic "index out of range"
  ∧ parseTLSClientHello emptyServerName = Panic "index out of range".
Proof. repeat split; vm_compute; reflexivity. Qed.

End SNIFacts.

(** ** The control plane *)

(** C8, as the code has it.  Each of the two registration handlers answers
    405 to every method other than POST, 400 to a POST on whose body
    [Decode] returns an error or whose body decodes to an empty selector or
    an empty backend, and 200 with a confirmation text to a POST whose body
    decodes with both fields non-empty; the configuration changes in the
    last case only, by [addBackend]. *)
Theorem registration_statuses
    (handler : Decoder → Config → string → string → Reply * Config)
    (decode : Decoder) (config : Config) (method body : string) :
  handler = registerHandler ∨ handler = registerBackendHandler →
  let reply := (handler decode config method body).1 in
  let config' := (handler decode config method body).2 in
  (method ≠ "POST" → StatusCode reply = StatusMethodNotAllowed ∧ config' = config)
  ∧ (method = "POST" → decode body = None →
     StatusCode reply = StatusBadRequest ∧ config' = config)
  ∧ (∀ registration, method = "POST" → decode body = Some registration →
       reg_selector registration = "" ∨ reg_backend registration = "" →
       StatusCode reply = StatusBadRequest ∧ config' = config)
  ∧ (∀ registration, method = "POST" → decode body = Some registration →
       reg_selector registration ≠ "" → reg_backend registration ≠ "" →
       StatusCode reply = StatusOK
       ∧ (ReplyBody reply
          = "Backend " +:+ reg_selector registration +:+ " registered successfully"
          ∨ ReplyBody reply
            = "Backend " +:+ reg_backend registration
              +:+ " registered successfully for host " +:+ reg_selector registration)
       ∧ config' = addBackend config (reg_selector registration)
                     (reg_backend registration))
  ∧ (StatusCode reply ≠ StatusOK → config' = config).
Proof.
  intros Hhandler reply config'. subst reply config'.
  destruct Hhandler as [-> | ->];
    unfold registerHandler, registerBackendHandler, MethodPost;
    (case_bool_decide as Hm;
     [|destruct (decode body) as [registration|] eqn:Hdec;
       [case_bool_decide as Hempty|]]);
    cbn; repeat split; try done; try (intros; simplify_eq; tauto);
    intros; simplify_eq; auto; try tauto.
Qed.

Lemma registration_statuses_witness :
  StatusCode (registerHandler exampleDecoder emptyConfig "POST" emptyNameBody).1
  = StatusBadRequest
  ∧ StatusCode (registerHandler exampleDecoder emptyConfig "GET" emptyNameBody).1
    = StatusMethodNotAllowed
  ∧ StatusCode (registerHandler exampleDecoder emptyConfig "POST" svcTestBody).1
    = StatusOK
  ∧ (registerHandler exampleDecoder emptyConfig "POST" svcTestBody).2
    = addBackend emptyConfig "svc.test" "127.0.0.1:9001".
Proof.
  pose proof (registration_statuses registerHandler exampleDecoder emptyConfig
                "POST" emptyNameBody (or_introl eq_refl)) as (_ & _ & Hempty & _).
  pose proof (registration_statuses registerHandler exampleDecoder emptyConfig
                "GET" emptyNameBody (or_introl eq_refl)) as (Hget & _).
  pose proof (registration_statuses registerHandler exampleDecoder emptyConfig
                "POST" svcTestBody (or_introl eq_refl)) as (_ & _ & _ & Hok & _).
  split; [|split].
  - apply (Hempty (mkRegistration "" "1.2.3.4:80")); [reflexivity|reflexivity|by left].
  - apply Hget. discriminate.
  - destruct (Hok (mkRegistration "svc.test" "127.0.0.1:9001")) as (H200 & _ & Hcfg);
      [reflexivity|reflexivity|discriminate|discriminate|].
    split; [exact H200|exact Hcfg].
Defined.

(** C8, as stated, fails: [trailingBody] is an object followed by the bytes
    [}garbage], so it is no JSON text; [Decode] returns the object without
    reading past it, and the handler answers 200 and registers the
    backend. *)
Lemma registration_accepts_trailing_bytes :
  trailingBody = svcTestBody +:+ "}garbage"
  ∧ registerHandler streamDecoder emptyConfig "POST" trailingBody
    = (mkReply StatusOK ∅ "Backend svc.test registered successfully",
       addBackend emptyConfig "svc.test" "127.0.0.1:9001")
  ∧ StatusCode (registerHandler streamDecoder emptyConfig "POST" trailingBody).1
    ≠ StatusBadRequest
  ∧ (registerHandler streamDecoder emptyConfig "POST" trailingBody).2 ≠ emptyConfig.
Proof.
  split; [reflexivity|]. split; [vm_compute; reflexivity|].
  split; [vm_compute; discriminate|].
  intros E. apply (f_equal (λ c, Backends c !! "svc.test")) in E.
  vm_compute in E. discriminate.
Qed.

(** ** The L7 forwarder *)

(** C4, as stated, fails: a GET and a POST for the same host and URL have
    the same cache key, and once the GET has been forwarded and its response
    recorded, the POST is answered with that response and is not forwarded. *)
Lemma cacheKey_method_collision :
  Method getX = "GET" ∧ Method postX = "POST"
  ∧ Host getX = Host postX ∧ ReqURL getX = ReqURL postX
  ∧ cacheKey demoEnv getX = cacheKey demoEnv postX
  ∧ ∃ config1,
      (handleHTTPRequest demoEnv range_trie demoConfig getX).1.2 = config1
      ∧ handleHTTPRequest demoEnv range_trie config1 postX
        = (Replied (mkReply StatusOK ∅ "v1"), config1, []).
Proof.
  repeat split. eexists. split; [reflexivity|]. vm_compute. reflexivity.
Qed.

(** On a miss with a backend chosen and a request built, the handler issues
    exactly one upstream request. *)
Lemma handleHTTPRequest_forward env rng config r backendURL config' :
  getFromCache config (cacheKey env r) = None →
  L7.getNextBackend rng config (Host r) = (Ret backendURL, config') →
  NewRequest_fails env (Method r) (backendURL +:+ Path (ReqURL r)) = false →
  let req := mkUpstreamRequest (Method r) (backendURL +:+ Path (ReqURL r))
               (ReqHeader r) (Body r) in
  (handleHTTPRequest env rng config r).2 = [EvNext (Host r); EvDo req]
  ∧ match Do env req with
    | DoErr _ =>
        (handleHTTPRequest env rng config r).1
        = (Replied (http_Error "Failed to connect to backend" StatusBadGateway), config')
    | DoResp _ _ (ReadErr _) =>
        (handleHTTPRequest env rng config r).1
        = (Replied (http_Error "Failed to read backend response"
                      StatusInternalServerError), config')
    | DoResp code hdr (ReadOk body) =>
        (handleHTTPRequest env rng config r).1
        = (writeResponse code (copyHeader hdr) body,
           storeInCache config' (cacheKey env r) body)
    end.
Proof.
  intros Hmiss Hnext Hnew req. unfold handleHTTPRequest.
  rewrite Hmiss, Hnext, Hnew. fold req.
  destruct (Do env req) as [e|code hdr [body|e]]; done.
Qed.

(** [WriteHeader] accepts the codes from 100 to 999 and panics on the
    others. *)
Lemma writeResponse_Replied (code : Z) (hdr : Header) (body : string) :
  (100 ≤ code ≤ 999)%Z →
  writeResponse code hdr body = Replied (mkReply code hdr body).
Proof. intros Hc. unfold writeResponse. rewrite bool_decide_eq_false_2; [done|lia]. Qed.

Lemma writeResponse_Panicked (code : Z) (hdr : Header) (body : string) :
  (code < 100 ∨ 999 < code)%Z →
  writeResponse code hdr body = Panicked ("invalid WriteHeader code " +:+ pretty code).
Proof. intros Hc. unfold writeResponse. by rewrite bool_decide_eq_true_2. Qed.

(** A request whose key is in the cache is answered from it. *)
Lemma handleHTTPRequest_hit env rng config r cachedResponse :
  getFromCache config (cacheKey env r) = Some cachedResponse →
  handleHTTPRequest env rng config r
  = (Replied (mkReply StatusOK ∅ cachedResponse), config, []).
Proof. intros Hhit. unfold handleHTTPRequest. by rewrite Hhit. Qed.

(** C4, as the code has it.  The cache key is the host, a colon and
    [URL.String()]; the method is no part of it.  So two requests with the
    same host and URL, whatever their methods, have the same key; when one
    of them is forwarded and the body of the upstream response is read, that
    body is recorded under the key of the other as well; and whenever the
    cache holds a response under the key of one, the other is answered with
    it, with status 200, no backend selection and no upstream request. *)
Theorem cache_entry_shared_across_methods
    (env : Env) (rng1 rng2 : RangeOrder) (config config' : Config)
    (r1 r2 : Request) (backendURL : string) (code : Z) (hdr : Header)
    (body : string) :
  Host r2 = Host r1 → ReqURL r2 = ReqURL r1 →
  cacheKey env r1 = Host r1 +:+ ":" +:+ URL_String env (ReqURL r1)
  ∧ cacheKey env r2 = cacheKey env r1
  ∧ (getFromCache config (cacheKey env r1) = None →
     L7.getNextBackend rng1 config (Host r1) = (Ret backendURL, config') →
     NewRequest_fails env (Method r1) (backendURL +:+ Path (ReqURL r1)) = false →
     Do env (mkUpstreamRequest (Method r1) (backendURL +:+ Path (ReqURL r1))
               (ReqHeader r1) (Body r1))
     = DoResp code hdr (ReadOk body) →
     getFromCache (handleHTTPRequest env rng1 config r1).1.2 (cacheKey env r2)
     = Some body)
  ∧ (∀ config0 cachedResponse,
       getFromCache config0 (cacheKey env r1) = Some cachedResponse →
       handleHTTPRequest env rng2 config0 r2
       = (Replied (mkReply StatusOK ∅ cachedResponse), config0, [])).
Proof.
  intros Hhost Hurl.
  assert (cacheKey env r2 = cacheKey env r1) as Hkey
    by (unfold cacheKey; by rewrite Hhost, Hurl).
  split; [done|]. split; [done|]. split.
  - intros Hmiss Hnext Hnew Hdo.
    destruct (handleHTTPRequest_forward env rng1 config r1 backendURL config'
                Hmiss Hnext Hnew) as [_ Hout].
    rewrite Hdo in Hout. rewrite Hout, Hkey.
    unfold getFromCache, storeInCache. cbn. by rewrite lookup_insert_eq.
  - intros config0 cachedResponse Hhit.
    apply handleHTTPRequest_hit. by rewrite Hkey.
Qed.

Lemma cache_entry_shared_across_methods_witness :
  Method getX ≠ Method postX
  ∧ cacheKey demoEnv postX = cacheKey demoEnv getX
  ∧ getFromCache (handleHTTPRequest demoEnv range_trie demoConfig getX).1.2
      (cacheKey demoEnv postX) = Some "v1"
  ∧ handleHTTPRequest demoEnv range_trie_rev
      (handleHTTPRequest demoEnv range_trie demoConfig getX).1.2 postX
    = (Replied (mkReply StatusOK ∅ "v1"),
       (handleHTTPRequest demoEnv range_trie demoConfig getX).1.2, []).
Proof.
  destruct (cache_entry_shared_across_methods demoEnv range_trie range_trie_rev
              demoConfig
              (L7.getNextBackend range_trie demoConfig "api.test").2
              getX postX "http://127.0.0.1:9100" 200 ∅ "v1" eq_refl eq_refl)
    as (_ & Hkey & Hrec & Hserved).
  split; [discriminate|]. split; [exact Hkey|].
  assert (getFromCache (handleHTTPRequest demoEnv range_trie demoConfig getX).1.2
            (cacheKey demoEnv postX) = Some "v1") as Hin.
  { apply Hrec; [reflexivity|vm_compute; reflexivity|reflexivity|reflexivity]. }
  split; [exact Hin|].
  apply Hserved. rewrite <- Hkey. exact Hin.
Defined.

(** C5.  When a first request missed the cache, got a backend, and the
    upstream answered with a response whose body [body] was read in full,
    the handler records that body and hands the response to the writer,
    which sends it with its status when [WriteHeader] accepts that status;
    a second request with the same host and URL is then answered with
    status 200 and body [body], without a call of [getNextBackend], without
    an upstream request, and without any change of the configuration. *)
Theorem second_request_served_from_cache
    (env : Env) (rng1 rng2 : RangeOrder) (config config' : Config)
    (r1 r2 : Request) (backendURL : string) (code : Z) (hdr : Header)
    (body : string) :
  Host r2 = Host r1 → ReqURL r2 = ReqURL r1 →
  getFromCache config (cacheKey env r1) = None →
  L7.getNextBackend rng1 config (Host r1) = (Ret backendURL, config') →
  NewRequest_fails env (Method r1) (backendURL +:+ Path (ReqURL r1)) = false →
  Do env (mkUpstreamRequest (Method r1) (backendURL +:+ Path (ReqURL r1))
            (ReqHeader r1) (Body r1))
  = DoResp code hdr (ReadOk body) →
  ∃ config1,
    (handleHTTPRequest env rng1 config r1).1
    = (writeResponse code (copyHeader hdr) body, config1)
    ∧ ((100 ≤ code ≤ 999)%Z →
       (handleHTTPRequest env rng1 config r1).1
       = (Replied (mkReply code (copyHeader hdr) body), config1))
    ∧ handleHTTPRequest env rng2 config1 r2
      = (Replied (mkReply StatusOK ∅ body), config1, []).
Proof.
  intros Hhost Hurl Hmiss Hnext Hnew Hdo.
  destruct (handleHTTPRequest_forward env rng1 config r1 backendURL config'
              Hmiss Hnext Hnew) as [_ Hout].
  rewrite Hdo in Hout. eexists. split; [exact Hout|].
  split; [intros Hcode; by rewrite Hout, writeResponse_Replied|].
  unfold handleHTTPRequest.
  replace (cacheKey env r2) with (cacheKey env r1)
    by (unfold cacheKey; by rewrite Hhost, Hurl).
  unfold getFromCache, storeInCache. cbn. by rewrite lookup_insert_eq.
Qed.

Lemma second_request_served_from_cache_witness :
  ∃ config1,
    (handleHTTPRequest demoEnv range_trie demoConfig getX).1
    = (Replied (mkReply 200 (copyHeader ∅) "v1"), config1)
    ∧ handleHTTPRequest demoEnv range_trie_rev config1 getX
      = (Replied (mkReply StatusOK ∅ "v1"), config1, []).
Proof.
  destruct (second_request_served_from_cache demoEnv range_trie range_trie_rev
              demoConfig (L7.getNextBackend range_trie demoConfig "api.test").2
              getX getX "http://127.0.0.1:9100" 200 ∅ "v1")
    as (config1 & _ & Hfirst & Hsecond);
    [reflexivity|reflexivity|reflexivity|vm_compute; reflexivity
    |reflexivity|reflexivity|].
  exists config1. split; [apply Hfirst; lia|exact Hsecond].
Defined.

(** C6, as the code has it.  On a cache miss with a backend chosen, the
    handler issues one upstream request: [http.NewRequest] is given the
    method of the client request, the string made of the backend URL
    followed by [r.URL.Path], and the body of the client request, and the
    request gets the header map of the client request.  The query string is
    no part of that string: a request that differs in the query string only
    leads to the same upstream request. *)
Theorem upstream_request_fields
    (env : Env) (rng : RangeOrder) (config config' : Config) (r : Request)
    (backendURL : string) :
  getFromCache config (cacheKey env r) = None →
  L7.getNextBackend rng config (Host r) = (Ret backendURL, config') →
  NewRequest_fails env (Method r) (backendURL +:+ Path (ReqURL r)) = false →
  upstreamRequests (handleHTTPRequest env rng config r).2
  = [mkUpstreamRequest (Method r) (backendURL +:+ Path (ReqURL r))
       (ReqHeader r) (Body r)]
  ∧ ∀ query : string,
      let r' := mkRequest (Method r) (Host r) (mkURL (Path (ReqURL r)) query)
                  (ReqHeader r) (Body r) in
      getFromCache config (cacheKey env r') = None →
      upstreamRequests (handleHTTPRequest env rng config r').2
      = upstreamRequests (handleHTTPRequest env rng config r).2.
Proof.
  intros Hmiss Hnext Hnew.
  destruct (handleHTTPRequest_forward env rng config r backendURL config'
              Hmiss Hnext Hnew) as [Htrace _].
  split; [by rewrite Htrace|].
  intros query r' Hmiss'.
  destruct (handleHTTPRequest_forward env rng config r' backendURL config'
              Hmiss' Hnext Hnew) as [Htrace' _].
  by rewrite Htrace, Htrace'.
Qed.

Lemma upstream_request_fields_witness :
  upstreamRequests (handleHTTPRequest demoEnv range_trie demoConfig postX).2
  = [mkUpstreamRequest "POST" "http://127.0.0.1:9100/x" ∅ "payload"]
  ∧ upstreamRequests
      (handleHTTPRequest demoEnv range_trie demoConfig
         (mkRequest "POST" "api.test" (mkURL "/x" "a=1") ∅ "payload")).2
    = upstreamRequests (handleHTTPRequest demoEnv range_trie demoConfig postX).2.
Proof.
  destruct (upstream_request_fields demoEnv range_trie demoConfig
              (L7.getNextBackend range_trie demoConfig "api.test").2 postX
              "http://127.0.0.1:9100") as [Hreq Hquery];
    [reflexivity|vm_compute; reflexivity|reflexivity|].
  split; [exact Hreq|]. apply (Hquery "a=1"). reflexivity.
Defined.

(** C6, as stated, fails: for the request [GET /x?a=1] the target of the
    upstream request is the backend URL followed by [/x]; the query string
    [a=1] is gone, and the upstream request is the one issued for [GET /x]. *)
Lemma upstream_request_drops_query :
  RawQuery (ReqURL getXQuery) = "a=1"
  ∧ upstreamRequests (handleHTTPRequest demoEnv range_trie demoConfig getXQuery).2
    = [mkUpstreamRequest "GET" "http://127.0.0.1:9100/x" ∅ ""]
  ∧ upstreamRequests (handleHTTPRequest demoEnv range_trie demoConfig getXQuery).2
    = upstreamRequests (handleHTTPRequest demoEnv range_trie demoConfig getX).2.
Proof. repeat split; vm_compute; reflexivity. Qed.

Lemma getNextBackendOf_no_backend what rng config sni :
  range_valid rng →
  Backends config !! sni = None ∨ Backends config !! sni = Some ∅ →
  getNextBackendOf what rng config sni
  = (Fail ("no backends available for " +:+ what +:+ ": " +:+ sni), config).
Proof.
  intros Hv [Hnone|Hempty]; unfold getNextBackendOf.
  - by rewrite Hnone.
  - rewrite Hempty. cbn zeta.
    rewrite bool_decide_eq_true_2; [done|].
    by rewrite (range_valid_length _ _ Hv), map_size_empty.
Qed.

Lemma getNextBackendOf_Ret_Cache what rng config sni backendURL config' :
  getNextBackendOf what rng config sni = (Ret backendURL, config') →
  Cache config' = Cache config.
Proof.
  unfold getNextBackendOf. intros Hnext.
  destruct (Backends config !! sni); [|done].
  cbn zeta in Hnext. case_bool_decide; [done|].
  destruct (index_slice _ _); by simplify_eq.
Qed.

(** C7.  In the caching proxy, for a request that is not answered from the
    cache: when the host has no registry entry, or an empty pool, the reply
    is 503, the configuration is unchanged and no upstream request is
    issued; when a backend is chosen and the upstream request fails with a
    transport error, the reply is 502 and nothing is recorded in the cache.
    In the build without the cache the same holds for every request.  In
    all these cases the reply body is the handler's own error text. *)
Theorem routing_and_upstream_failures
    (env : Env) (rng : RangeOrder) (config : Config) (r : Request) :
  range_valid rng →
  (getFromCache config (cacheKey env r) = None →
   (Backends config !! Host r = None ∨ Backends config !! Host r = Some ∅ →
    handleHTTPRequest env rng config r
    = (Replied (http_Error "No backend available" StatusServiceUnavailable),
       config, [EvNext (Host r)]))
   ∧ (∀ backendURL config' err,
        L7.getNextBackend rng config (Host r) = (Ret backendURL, config') →
        NewRequest_fails env (Method r) (backendURL +:+ Path (ReqURL r)) = false →
        Do env (mkUpstreamRequest (Method r) (backendURL +:+ Path (ReqURL r))
                  (ReqHeader r) (Body r)) = DoErr err →
        (handleHTTPRequest env rng config r).1
        = (Replied (http_Error "Failed to connect to backend" StatusBadGateway),
           config')
        ∧ Cache config' = Cache config))
  ∧ (Backends config !! Host r = None ∨ Backends config !! Host r = Some ∅ →
     StressL7.handleHTTPRequest env rng config r
     = (Replied (http_Error "No backend available" StatusServiceUnavailable),
        config, [EvNext (Host r)]))
  ∧ (∀ backendURL config' err,
       L7.getNextBackend rng config (Host r) = (Ret backendURL, config') →
       NewRequest_fails env (Method r) (backendURL +:+ Path (ReqURL r)) = false →
       Do env (mkUpstreamRequest (Method r) (backendURL +:+ Path (ReqURL r))
                 (ReqHeader r) (Body r)) = DoErr err →
       (StressL7.handleHTTPRequest env rng config r).1
       = (Replied (http_Error "Failed to connect to backend" StatusBadGateway),
          config')).
Proof.
  intros Hv. split; [intros Hmiss; split|split].
  - intros Hno. unfold handleHTTPRequest, L7.getNextBackend.
    by rewrite Hmiss, (getNextBackendOf_no_backend _ _ _ _ Hv Hno).
  - intros backendURL config' err Hnext Hnew Hdo.
    destruct (handleHTTPRequest_forward env rng config r backendURL config'
                Hmiss Hnext Hnew) as [_ Hout].
    rewrite Hdo in Hout. split; [done|].
    by eapply getNextBackendOf_Ret_Cache.
  - intros Hno. unfold StressL7.handleHTTPRequest, L7.getNextBackend.
    by rewrite (getNextBackendOf_no_backend _ _ _ _ Hv Hno).
  - intros backendURL config' err Hnext Hnew Hdo.
    unfold StressL7.handleHTTPRequest. by rewrite Hnext, Hnew, Hdo.
Qed.

Lemma routing_and_upstream_failures_witness :
  StatusCode (http_Error "No backend available" StatusServiceUnavailable) = 503%Z
  ∧ StatusCode (http_Error "Failed to connect to backend" StatusBadGateway) = 502%Z
  ∧ handleHTTPRequest demoEnv range_trie emptyConfig getX
    = (Replied (http_Error "No backend available" StatusServiceUnavailable),
       emptyConfig, [EvNext "api.test"])
  ∧ ∃ config',
      (handleHTTPRequest downEnv range_trie demoConfig getX).1
      = (Replied (http_Error "Failed to connect to backend" StatusBadGateway),
         config')
      ∧ Cache config' = Cache demoConfig.
Proof.
  split; [reflexivity|]. split; [reflexivity|].
  destruct (routing_and_upstream_failures demoEnv range_trie emptyConfig getX
              range_trie_valid) as [H503 _].
  destruct (routing_and_upstream_failures downEnv range_trie demoConfig getX
              range_trie_valid) as [H502 _].
  split; [apply (H503 eq_refl); by left|].
  eexists. eapply (proj2 (H502 eq_refl) "http://127.0.0.1:9100" _ "connection refused");
    [vm_compute; reflexivity|reflexivity|reflexivity].
Defined.

(** * Further properties *)

(** ** The registry *)

Lemma index_slice_Ret (l : list string) (i : Z) (b : string) :
  index_slice l i = Ret b → (0 ≤ i)%Z ∧ l !! Z.to_nat i = Some b.
Proof.
  unfold index_slice. case_bool_decide; [|done].
  destruct (l !! Z.to_nat i) eqn:Hl; [|done]. by intros [= ->].
Qed.

Lemma Config_eq (c1 c2 : Config) :
  Backends c1 = Backends c2 → BackendIndices c1 = BackendIndices c2 →
  Cache c1 = Cache c2 → c1 = c2.
Proof. destruct c1, c2. cbn. by intros -> -> ->. Qed.

(** X1.  A call of [getNextBackend] that returns a backend returns one that
    is in the pool of that selector; it leaves the pools and the cache as
    they were, touches the cursor of no other selector, and leaves the
    selector's own cursor inside the pool's range. *)
Theorem getNextBackend_selects_registered
    (what : string) (rng : RangeOrder) (config config' : Config)
    (sni b : string) :
  range_valid rng →
  getNextBackendOf what rng config sni = (Ret b, config') →
  ∃ pool,
    Backends config !! sni = Some pool
    ∧ is_Some (pool !! b)
    ∧ Backends config' = Backends config
    ∧ Cache config' = Cache config
    ∧ (∀ sni', sni' ≠ sni →
         BackendIndices config' !! sni' = BackendIndices config !! sni')
    ∧ (0 ≤ cursorOf config' sni < Z.of_nat (size pool))%Z.
Proof.
  intros Hv. unfold getNextBackendOf.
  destruct (Backends config !! sni) as [pool|] eqn:Hpool; [|done].
  cbn zeta. case_bool_decide as Hlen; [done|].
  destruct (index_slice _ _) as [b'| | |] eqn:Hidx; intros [= <- <-].
  apply index_slice_Ret in Hidx as [Hnonneg Hb].
  exists pool. split; [done|]. split.
  { apply (Hv pool). by eapply list_elem_of_lookup_2. }
  split; [done|]. split; [done|]. split.
  - intros sni' Hne. cbn. rewrite lookup_insert_ne by done.
    destruct (BackendIndices config !! sni); [done|]. by rewrite lookup_insert_ne.
  - unfold cursorOf. cbn. rewrite lookup_insert_eq. cbn.
    rewrite <- (range_valid_length rng pool Hv).
    apply Z.rem_bound_pos; lia.
Qed.

Lemma getNextBackend_selects_registered_witness :
  ∃ pool,
    Backends demoConfig !! "api.test" = Some pool
    ∧ is_Some (pool !! "http://127.0.0.1:9100").
Proof.
  destruct (getNextBackend_selects_registered "host" range_trie demoConfig
              (L7.getNextBackend range_trie demoConfig "api.test").2
              "api.test" "http://127.0.0.1:9100" range_trie_valid)
    as (pool & Hpool & Hb & _); [vm_compute; reflexivity|].
  exists pool. by split.
Defined.

(** X2.  After [removeBackend] the removed backend is not returned by
    [getNextBackend] for that selector, whatever the cursor is and in
    whatever order [Range] visits the pool. *)
Theorem removed_backend_not_selected
    (what : string) (rng : RangeOrder) (config : Config) (sni b : string) :
  range_valid rng →
  (getNextBackendOf what rng (removeBackend config sni b) sni).1 ≠ Ret b.
Proof.
  intros Hv Hret. unfold removeBackend in Hret.
  destruct (Backends config !! sni) as [pool|] eqn:Hpool.
  - unfold getNextBackendOf in Hret. cbn in Hret.
    rewrite lookup_insert_eq in Hret. cbn zeta in Hret.
    case_bool_decide; [done|].
    destruct (index_slice _ _) as [b'| | |] eqn:Hidx; cbn in Hret; [|done..].
    injection Hret as ->.
    apply index_slice_Ret in Hidx as [_ Hb].
    apply list_elem_of_lookup_2, (Hv (delete b pool)) in Hb.
    rewrite lookup_delete_eq in Hb. by destruct Hb.
  - unfold getNextBackendOf in Hret. by rewrite Hpool in Hret.
Qed.

Lemma removed_backend_not_selected_witness :
  (L4.getNextBackend range_trie
     (removeBackend (addBackend (addBackend emptyConfig "h" "A") "h" "B") "h" "B")
     "h").1 ≠ Ret "B".
Proof.
  exact (removed_backend_not_selected "SNI" range_trie
           (addBackend (addBackend emptyConfig "h" "A") "h" "B") "h" "B"
           range_trie_valid).
Defined.

(** X3.  [removeBackend] for a selector that is not registered, or for a
    backend that is not in the selector's pool, changes nothing. *)
Theorem removeBackend_absent_noop (config : Config) (sni b : string) :
  Backends config !! sni = None
  ∨ (∃ pool, Backends config !! sni = Some pool ∧ pool !! b = None) →
  removeBackend config sni b = config.
Proof.
  intros [Hnone|(pool & Hpool & Hb)]; unfold removeBackend.
  - by rewrite Hnone.
  - rewrite Hpool. apply Config_eq; cbn; [|done..].
    rewrite delete_id by done. by apply insert_id.
Qed.

Lemma removeBackend_absent_noop_witness :
  removeBackend emptyConfig "h" "A" = emptyConfig
  ∧ removeBackend demoConfig "api.test" "http://10.0.0.1:80" = demoConfig.
Proof.
  split.
  - apply removeBackend_absent_noop. left. reflexivity.
  - apply removeBackend_absent_noop. right.
    exists {["http://127.0.0.1:9100" := true]}. split; vm_compute; reflexivity.
Defined.

(** X4.  Removing the only backend of a selector leaves the selector
    registered with an empty pool; [getNextBackend] then returns the
    no-backends error and changes nothing, whatever the cursor is. *)
Theorem removeBackend_last_leaves_empty_pool
    (what : string) (rng : RangeOrder) (config : Config) (sni b : string) (v : bool) :
  range_valid rng →
  Backends config !! sni = Some {[b := v]} →
  let config' := removeBackend config sni b in
  Backends config' !! sni = Some ∅
  ∧ BackendIndices config' = BackendIndices config
  ∧ getNextBackendOf what rng config' sni
    = (Fail ("no backends available for " +:+ what +:+ ": " +:+ sni), config').
Proof.
  intros Hv Hpool config'.
  assert (Backends config' !! sni = Some ∅) as Hempty.
  { unfold config', removeBackend. rewrite Hpool. cbn.
    by rewrite lookup_insert_eq, delete_singleton_eq. }
  split; [done|]. split.
  - unfold config', removeBackend. by rewrite Hpool.
  - apply getNextBackendOf_no_backend; [done|by right].
Qed.

Lemma removeBackend_last_leaves_empty_pool_witness :
  Backends (removeBackend demoConfig "api.test" "http://127.0.0.1:9100") !! "api.test"
  = Some ∅
  ∧ (L7.getNextBackend range_trie
       (removeBackend demoConfig "api.test" "http://127.0.0.1:9100") "api.test").1
    = Fail "no backends available for host: api.test".
Proof.
  destruct (removeBackend_last_leaves_empty_pool "host" range_trie demoConfig
              "api.test" "http://127.0.0.1:9100" true range_trie_valid)
    as (Hempty & _ & Hnext); [vm_compute; reflexivity|].
  split; [exact Hempty|]. unfold L7.getNextBackend. by rewrite Hnext.
Defined.

(** X5.  Two registrations give the same configuration in either order:
    a pool does not record the order in which its backends were added. *)
Theorem addBackend_order_irrelevant (config : Config) (sni1 b1 sni2 b2 : string) :
  addBackend (addBackend config sni1 b1) sni2 b2
  = addBackend (addBackend config sni2 b2) sni1 b1.
Proof.
  apply Config_eq; [|done..]. unfold addBackend. cbn.
  destruct (decide (sni1 = sni2)) as [<-|Hne].
  - rewrite !lookup_insert_eq, !insert_insert_eq. cbn. f_equal.
    destruct (decide (b1 = b2)) as [<-|Hb]; [done|]. by apply insert_insert_ne.
  - rewrite (lookup_insert_ne _ sni1 sni2), (lookup_insert_ne _ sni2 sni1) by done.
    by apply insert_insert_ne.
Qed.

(** A call of [getNextBackend] changes no pool, and no cursor but that of
    its selector, however it ends. *)
Lemma getNextBackendOf_frame what rng config sni :
  Backends (getNextBackendOf what rng config sni).2 = Backends config
  ∧ Cache (getNextBackendOf what rng config sni).2 = Cache config
  ∧ ∀ sni', sni' ≠ sni →
      BackendIndices (getNextBackendOf what rng config sni).2 !! sni'
      = BackendIndices config !! sni'.
Proof.
  unfold getNextBackendOf.
  destruct (Backends config !! sni) as [pool|]; [|done].
  cbn zeta. case_bool_decide; [done|].
  assert (∀ sni', sni' ≠ sni →
            match BackendIndices config !! sni with
            | Some _ => BackendIndices config
            | None => <[sni:=0%Z]> (BackendIndices config)
            end !! sni' = BackendIndices config !! sni') as Hind.
  { intros sni' Hne. destruct (BackendIndices config !! sni); [done|].
    by rewrite lookup_insert_ne. }
  destruct (index_slice _ _); cbn; (split; [done|]); (split; [done|]);
    intros sni' Hne; rewrite ?lookup_insert_ne by done; by apply Hind.
Qed.

(** The result of [getNextBackend] for a selector depends on the pool and
    the cursor of that selector only. *)
Lemma getNextBackendOf_local what rng config1 config2 sni :
  Backends config1 !! sni = Backends config2 !! sni →
  BackendIndices config1 !! sni = BackendIndices config2 !! sni →
  (getNextBackendOf what rng config1 sni).1 = (getNextBackendOf what rng config2 sni).1.
Proof.
  intros Hb Hi. unfold getNextBackendOf. rewrite Hb, Hi.
  destruct (Backends config2 !! sni) as [pool|]; [|done].
  cbn zeta. case_bool_decide; [done|]. by destruct (index_slice _ _).
Qed.

(** X6.  Selectors are independent: registering or removing a backend for
    one selector, or selecting for it, changes neither the pool nor the
    cursor of another selector, nor what the next selection for that other
    selector returns. *)
Theorem registry_selectors_independent
    (what : string) (rng rng' : RangeOrder) (config : Config)
    (sni sni' b : string) :
  sni ≠ sni' →
  let unchanged (config1 : Config) :=
    Backends config1 !! sni' = Backends config !! sni'
    ∧ BackendIndices config1 !! sni' = BackendIndices config !! sni'
    ∧ (getNextBackendOf what rng' config1 sni').1
      = (getNextBackendOf what rng' config sni').1 in
  unchanged (addBackend config sni b)
  ∧ unchanged (removeBackend config sni b)
  ∧ unchanged (getNextBackendOf what rng config sni).2.
Proof.
  intros Hne unchanged.
  assert (∀ config1,
            Backends config1 !! sni' = Backends config !! sni' →
            BackendIndices config1 !! sni' = BackendIndices config !! sni' →
            unchanged config1) as Hun.
  { intros config1 Hb Hi. split; [done|]. split; [done|].
    by apply getNextBackendOf_local. }
  split; [|split]; apply Hun.
  - unfold addBackend. cbn. by rewrite lookup_insert_ne.
  - done.
  - unfold removeBackend. destruct (Backends config !! sni); [|done].
    cbn. by rewrite lookup_insert_ne.
  - unfold removeBackend. by destruct (Backends config !! sni).
  - destruct (getNextBackendOf_frame what rng config sni) as (-> & _). done.
  - destruct (getNextBackendOf_frame what rng config sni) as (_ & _ & Hi).
    by apply Hi.
Qed.

Lemma registry_selectors_independent_witness :
  (L4.getNextBackend range_trie
     (removeBackend (addBackend (addBackend emptyConfig "g" "A") "h" "B") "h" "B")
     "g").1
  = (L4.getNextBackend range_trie
       (addBackend (addBackend emptyConfig "g" "A") "h" "B") "g").1.
Proof.
  destruct (registry_selectors_independent "SNI" range_trie range_trie
              (addBackend (addBackend emptyConfig "g" "A") "h" "B") "h" "g" "B")
    as (_ & (_ & _ & H) & _); [discriminate|exact H].
Defined.

(** *** Sequences of registrations and selections *)

Lemma registrations_Register sni b ops :
  registrations (Register sni b :: ops) = (sni, b) :: registrations ops.
Proof. done. Qed.

Lemma registrations_Next rng sni ops :
  registrations (Next rng sni :: ops) = registrations ops.
Proof. done. Qed.

Lemma in_pool_addBackend config sni b sni' b' :
  in_pool (addBackend config sni b) sni' b'
  ↔ in_pool config sni' b' ∨ (sni', b') = (sni, b).
Proof.
  unfold in_pool, addBackend. cbn. destruct (decide (sni = sni')) as [<-|Hne].
  - rewrite lookup_insert_eq. split.
    + intros (pool & [= <-] & Hb). destruct (decide (b = b')) as [<-|Hbne]; [by right|].
      rewrite lookup_insert_ne in Hb by done. left.
      destruct (Backends config !! sni) as [pool|]; cbn in Hb.
      * by exists pool.
      * rewrite lookup_empty in Hb. by destruct Hb.
    + intros [(pool & Hpool & Hb)|[= <-]].
      * eexists. split; [done|]. rewrite Hpool. cbn.
        destruct (decide (b = b')) as [<-|Hbne];
          [by rewrite lookup_insert_eq|by rewrite lookup_insert_ne].
      * eexists. split; [done|]. by rewrite lookup_insert_eq.
  - rewrite lookup_insert_ne by done. split; [by left|].
    intros [H|[= ? ?]]; [done|]. by subst.
Qed.

Lemma getNextBackendOf_Ret_or_Fail what rng config sni :
  range_valid rng → cursor_in_range config →
  (∃ b, (getNextBackendOf what rng config sni).1 = Ret b ∧ in_pool config sni b)
  ∨ (∃ e, (getNextBackendOf what rng config sni).1 = Fail e).
Proof.
  intros Hv Hinv.
  destruct (cursor_in_range_getNextBackendOf what rng config sni Hv Hinv) as [_ Hnp].
  destruct (getNextBackendOf what rng config sni) as [r config'] eqn:Hstep.
  destruct r as [b|e|msg|]; cbn in *.
  - left. exists b. split; [done|].
    unfold getNextBackendOf in Hstep.
    destruct (Backends config !! sni) as [pool|] eqn:Hpool; [|done].
    cbn zeta in Hstep. case_bool_decide; [done|].
    destruct (index_slice _ _) as [b'| | |] eqn:Hidx; simplify_eq.
    apply index_slice_Ret in Hidx as [_ Hb].
    exists pool. split; [done|]. apply (Hv pool). by eapply list_elem_of_lookup_2.
  - right. by exists e.
  - by destruct (Hnp msg).
  - unfold getNextBackendOf in Hstep.
    destruct (Backends config !! sni) as [pool|]; [|done].
    cbn zeta in Hstep. case_bool_decide; [done|].
    unfold index_slice in Hstep. case_bool_decide;
      [destruct (_ !! _)|]; simplify_eq.
Qed.

Lemma runOps_register_select (ops : list RegistryOp) :
  Forall no_removal ops →
  ∀ config, cursor_in_range config →
    Forall (λ r, (∃ b sni, r = Ret b
                           ∧ (in_pool config sni b ∨ (sni, b) ∈ registrations ops))
                 ∨ (∃ e, r = Fail e))
      (runOps ops config).1
    ∧ cursor_in_range (runOps ops config).2
    ∧ (∀ sni b, in_pool (runOps ops config).2 sni b
                ↔ in_pool config sni b ∨ (sni, b) ∈ registrations ops).
Proof.
  induction 1 as [|op ops Hop _ IH]; intros config Hinv.
  { cbn. split; [done|]. split; [done|]. intros sni b. rewrite elem_of_nil. tauto. }
  destruct op as [sni b|sni b|rng sni]; cbn in Hop; [|done|].
  - cbn [runOps]. rewrite registrations_Register.
    destruct (IH (addBackend config sni b)
                (cursor_in_range_addBackend _ _ _ Hinv)) as (Hres & Hinv' & Hpools).
    split; [|split; [done|]].
    + eapply Forall_impl; [exact Hres|]. cbn.
      intros r [(b' & sni' & -> & Hin)|He]; [|by right].
      left. exists b', sni'. split; [done|].
      rewrite in_pool_addBackend in Hin. rewrite elem_of_cons. tauto.
    + intros sni' b'. rewrite Hpools, in_pool_addBackend, elem_of_cons. tauto.
  - cbn [runOps]. rewrite registrations_Next.
    destruct (cursor_in_range_getNextBackendOf "SNI" rng config sni Hop Hinv)
      as [Hinv' _].
    pose proof (getNextBackendOf_Ret_or_Fail "SNI" rng config sni Hop Hinv) as Hr.
    destruct (getNextBackendOf_frame "SNI" rng config sni) as (Hbk & _).
    unfold L4.getNextBackend.
    destruct (getNextBackendOf "SNI" rng config sni) as [r config'].
    cbn in Hinv', Hr, Hbk.
    assert (∀ s x, in_pool config' s x ↔ in_pool config s x) as Hsame.
    { intros s x. unfold in_pool. by rewrite Hbk. }
    destruct (IH config' Hinv') as (Hres & Hinv'' & Hpools).
    destruct (runOps ops config') as [rs config'']. cbn in *.
    split; [|split; [done|]].
    + constructor.
      * destruct Hr as [(b & -> & Hb)|[e ->]]; [left; eauto|right; eauto].
      * eapply Forall_impl; [exact Hres|]. cbn.
        intros r' [(b' & sni' & -> & Hin)|He]; [|by right].
        left. exists b', sni'. split; [done|]. rewrite Hsame in Hin. done.
    + intros s x. by rewrite Hpools, Hsame.
Qed.

(** X7.  Starting from the empty configuration, a sequence of
    registrations and selections without removals never panics: every
    selection returns an error or a backend that the sequence registers;
    the cursors stay in range; and at the end the pool of a selector holds
    exactly the backends registered for it. *)
Theorem register_select_sequences (ops : list RegistryOp) :
  Forall no_removal ops →
  Forall (λ r, (∃ b sni, r = Ret b ∧ (sni, b) ∈ registrations ops)
               ∨ (∃ e, r = Fail e))
    (runOps ops emptyConfig).1
  ∧ cursor_in_range (runOps ops emptyConfig).2
  ∧ (∀ sni b, in_pool (runOps ops emptyConfig).2 sni b
              ↔ (sni, b) ∈ registrations ops).
Proof.
  intros Hops.
  assert (∀ sni b, ¬ in_pool emptyConfig sni b) as Hempty.
  { intros sni b (pool & Hpool & _). cbn in Hpool. by rewrite lookup_empty in Hpool. }
  destruct (runOps_register_select ops Hops emptyConfig cursor_in_range_empty)
    as (Hres & Hinv & Hpools).
  split; [|split; [done|]].
  - eapply Forall_impl; [exact Hres|]. cbn.
    intros r [(b & sni & -> & [Hin|Hin])|He]; [by destruct (Hempty sni b)| |by right].
    left. eauto.
  - intros sni b. rewrite Hpools. split; [|by right].
    intros [Hin|Hin]; [by destruct (Hempty sni b)|done].
Qed.

Lemma register_select_sequences_witness :
  Forall (λ r, (∃ b sni, r = Ret b ∧ (sni, b) ∈ [("h", "A"); ("h", "B")])
               ∨ (∃ e, r = Fail e))
    (runOps [Next range_trie "h"; Register "h" "A"; Next range_trie "h";
             Register "h" "B"; Next range_trie_rev "h"; Next range_trie "h"]
       emptyConfig).1.
Proof.
  apply (register_select_sequences
           [Next range_trie "h"; Register "h" "A"; Next range_trie "h";
            Register "h" "B"; Next range_trie_rev "h"; Next range_trie "h"]).
  apply List.Forall_cons; [exact range_trie_valid|].
  apply List.Forall_cons; [exact I|].
  apply List.Forall_cons; [exact range_trie_valid|].
  apply List.Forall_cons; [exact I|].
  apply List.Forall_cons; [exact range_trie_rev_valid|].
  apply List.Forall_cons; [exact range_trie_valid|].
  apply List.Forall_nil.
Defined.

(** A backend that [getNextBackend] returns is in the selector's pool. *)
Lemma getNextBackend_pool what rng config config' sni b :
  range_valid rng →
  getNextBackendOf what rng config sni = (Ret b, config') →
  in_pool config sni b.
Proof.
  intros Hv. unfold getNextBackendOf.
  destruct (Backends config !! sni) as [pool|] eqn:Hpool; [|done].
  cbn zeta. case_bool_decide; [done|].
  destruct (index_slice _ _) as [b'| | |] eqn:Hidx; intros [= <- <-].
  apply index_slice_Ret in Hidx as [_ Hb].
  exists pool. split; [done|]. apply (Hv pool). by eapply list_elem_of_lookup_2.
Qed.

Lemma index_slice_Ret_or_Panic (l : list string) (i : Z) :
  (∃ b, index_slice l i = Ret b) ∨ index_slice l i = Panic "index out of range".
Proof.
  unfold index_slice. case_bool_decide; [|by right].
  destruct (l !! Z.to_nat i); [left; eauto|by right].
Qed.

(** A call of [getNextBackend] that returns an error changes nothing. *)
Lemma getNextBackendOf_Fail_config what rng config config' sni e :
  getNextBackendOf what rng config sni = (Fail e, config') → config' = config.
Proof.
  unfold getNextBackendOf.
  destruct (Backends config !! sni) as [pool|]; [|by intros [= _ <-]].
  cbn zeta. case_bool_decide; [by intros [= _ <-]|].
  destruct (index_slice_Ret_or_Panic (rng pool)
              (default 0%Z (BackendIndices config !! sni))) as [[b ->]| ->]; done.
Qed.

(** [Range] over a pool with one backend visits that backend. *)
Lemma range_singleton (rng : RangeOrder) (b : string) (v : bool) :
  range_valid rng → rng {[b := v]} = [b].
Proof.
  intros Hv. destruct (Hv {[b := v]}) as [Hnd Hin].
  pose proof (range_valid_length rng {[b := v]} Hv) as Hl.
  rewrite map_size_singleton in Hl.
  destruct (rng _) as [|x [|y l]] eqn:Hr; cbn in Hl; try lia.
  f_equal. assert (x ∈ [x]) as Hx by (by apply list_elem_of_here).
  apply Hin in Hx as [v' Hx]. apply lookup_singleton_Some in Hx as [? _]. done.
Qed.

(** ** The SNI parser on arbitrary input *)

Module SNIMore.
Import SNI SNIFacts.
Local Open Scope Z_scope.

Lemma at_result (data : list ascii) (z : Z) :
  (∃ v, at_ data z = Ret v ∧ 0 ≤ v < 256 ∧ 0 ≤ z < len data)
  ∨ at_ data z = Panic "index out of range".
Proof.
  unfold at_. case_bool_decide; [|by right].
  destruct (data !! Z.to_nat z) as [b|] eqn:Hb; [|by right].
  left. exists (int b). split; [done|]. split; [apply int_range|].
  apply lookup_lt_Some in Hb. unfold len. lia.
Qed.

(** To show [P] of a read followed by [k], show it of the panic and of [k]
    at every byte value. *)
Lemma bind_at_shape (P : Res string → Prop) (data : list ascii) (z : Z)
    (k : Z → Res string) :
  P (Panic "index out of range") →
  (∀ v, 0 ≤ v < 256 → 0 ≤ z < len data → P (k v)) →
  P (bind (at_ data z) k).
Proof.
  intros Hpanic Hk. destruct (at_result data z) as [(v & -> & Hv & Hz)| ->]; cbn; auto.
Qed.

(** The ways a run of the loop over the extensions can end. *)
Lemma walkExtensions_shape (P : Res string → Prop) (data : list ascii)
    (offset0 end_ : Z) :
  (∀ e, P (Fail e)) →
  P (Panic "index out of range") →
  P OutOfFuel →
  (∀ lo n, offset0 + 9 ≤ lo → lo + n ≤ end_ → 0 ≤ n < 65536 →
           P (slice_string data lo (lo + n))) →
  ∀ fuel offset, offset0 ≤ offset → P (walkExtensions fuel data offset end_).
Proof.
  intros Hfail Hpanic Hfuel Hslice. induction fuel as [|fuel IH]; intros offset Hoff;
    [done|].
  cbn [walkExtensions]. case_bool_decide; [|done].
  apply bind_at_shape; [done|]; intros t0 Ht0 _.
  apply bind_at_shape; [done|]; intros t1 Ht1 _.
  apply bind_at_shape; [done|]; intros l0 Hl0 _.
  apply bind_at_shape; [done|]; intros l1 Hl1 _.
  pose proof (be16_nonneg l0 l1 ltac:(lia) Hl1).
  case_bool_decide; [done|]. case_bool_decide.
  - apply bind_at_shape; [done|]; intros s0 Hs0 _.
    apply bind_at_shape; [done|]; intros s1 Hs1 _.
    case_bool_decide; [done|].
    rewrite (be16_add s0 s1) in * by done. apply Hslice; lia.
  - apply IH. lia.
Qed.

(** The ways a run of the parser can end: with an error, with the index
    panic, or in the loop over the extensions, entered at an offset of at
    least 49 with the end of the extensions inside the input. *)
Lemma parseTLSClientHello_shape (P : Res string → Prop) (data : list ascii) :
  (∀ e, P (Fail e)) →
  P (Panic "index out of range") →
  (∀ offset end_, 49 ≤ offset → end_ ≤ len data →
                  P (walkExtensions (length data) data offset end_)) →
  P (parseTLSClientHello data).
Proof.
  intros Hfail Hpanic Hwalk. unfold parseTLSClientHello.
  case_bool_decide; [done|].
  apply bind_at_shape; [done|]; intros d0 _ _. case_bool_decide; [done|].
  apply bind_at_shape; [done|]; intros d1 _ _. case_bool_decide; [done|].
  apply bind_at_shape; [done|]; intros d2 _ _. case_bool_decide; [done|].
  apply bind_at_shape; [done|]; intros d3 _ _.
  apply bind_at_shape; [done|]; intros d4 _ _. case_bool_decide; [done|].
  apply bind_at_shape; [done|]; intros ht _ _. case_bool_decide; [done|].
  case_bool_decide; [done|].
  apply bind_at_shape; [done|]; intros sid Hsid _. case_bool_decide; [done|].
  apply bind_at_shape; [done|]; intros c0 Hc0 _.
  apply bind_at_shape; [done|]; intros c1 Hc1 _. case_bool_decide; [done|].
  apply bind_at_shape; [done|]; intros cm Hcm _. case_bool_decide; [done|].
  apply bind_at_shape; [done|]; intros e0 He0 _.
  apply bind_at_shape; [done|]; intros e1 He1 _. case_bool_decide; [done|].
  pose proof (be16_nonneg c0 c1 ltac:(lia) Hc1).
  apply Hwalk; lia.
Qed.

Lemma length_string_of_list_ascii (l : list ascii) :
  String.length (string_of_list_ascii l) = length l.
Proof. induction l as [|a l IH]; cbn; [done|by rewrite IH]. Qed.

Lemma slice_string_Ret (data : list ascii) (lo hi : Z) (s : string) :
  slice_string data lo hi = Ret s →
  0 ≤ lo ∧ lo ≤ hi ∧ hi ≤ len data
  ∧ list_ascii_of_string s = take (Z.to_nat (hi - lo)) (drop (Z.to_nat lo) data)
  ∧ Z.of_nat (String.length s) = hi - lo.
Proof.
  unfold slice_string. case_bool_decide as Hb; [|done]. intros [= <-].
  destruct Hb as (? & ? & Hhi). split; [done|]. split; [done|]. split; [done|].
  rewrite list_ascii_of_string_of_list_ascii. split; [done|].
  rewrite length_string_of_list_ascii, length_take, length_drop.
  unfold len in Hhi. lia.
Qed.

(** X8.  A host name that the parser returns is a stretch of the input: the
    bytes of the name are the bytes of the input from some offset on, the
    offset is at least 58, the stretch ends inside the input, and the name
    is shorter than 65536 bytes. *)
Theorem parse_returns_slice_of_input (data : list ascii) (name : string) :
  parseTLSClientHello data = Ret name →
  ∃ lo : nat,
    (58 ≤ lo)%nat
    ∧ (lo + String.length name ≤ length data)%nat
    ∧ Z.of_nat (String.length name) < 65536
    ∧ list_ascii_of_string name = take (String.length name) (drop lo data).
Proof.
  apply (parseTLSClientHello_shape
           (λ r, r = Ret name → ∃ lo : nat, (58 ≤ lo)%nat
                   ∧ (lo + String.length name ≤ length data)%nat
                   ∧ Z.of_nat (String.length name) < 65536
                   ∧ list_ascii_of_string name
                     = take (String.length name) (drop lo data))); [done..|].
  intros offset end_ Hoff Hend.
  apply (walkExtensions_shape
           (λ r, r = Ret name → ∃ lo : nat, (58 ≤ lo)%nat
                   ∧ (lo + String.length name ≤ length data)%nat
                   ∧ Z.of_nat (String.length name) < 65536
                   ∧ list_ascii_of_string name
                     = take (String.length name) (drop lo data))
           data offset end_); [done..| |lia].
  intros lo n Hlo Hhi Hn Hslice.
  apply slice_string_Ret in Hslice as (_ & _ & Hin & Hbytes & Hlen).
  replace (lo + n - lo) with n in * by lia.
  exists (Z.to_nat lo). unfold len in *.
  assert (String.length name = Z.to_nat n) as -> by lia.
  split; [lia|]. split; [lia|]. split; [lia|]. done.
Qed.

Lemma parse_returns_slice_of_input_witness :
  ∃ lo : nat,
    (58 ≤ lo)%nat
    ∧ list_ascii_of_string "example.ulfheim.net" = take 19 (drop lo capturedBytes).
Proof.
  destruct (parse_returns_slice_of_input capturedBytes "example.ulfheim.net")
    as (lo & Hlo & _ & _ & Hbytes); [vm_compute; reflexivity|].
  exists lo. split; [exact Hlo|exact Hbytes].
Defined.

(** X9.  The only panic of the parser is the index panic: whenever the
    slice expression [data[offset+5 : offset+5+sniLen]] is reached, its
    bounds lie inside the input. *)
Theorem parse_slice_in_bounds (data : list ascii) (msg : string) :
  parseTLSClientHello data = Panic msg → msg = "index out of range".
Proof.
  apply (parseTLSClientHello_shape (λ r, r = Panic msg → msg = "index out of range"));
    [done|by intros [= <-]|].
  intros offset end_ Hoff Hend.
  apply (walkExtensions_shape (λ r, r = Panic msg → msg = "index out of range")
           data offset end_); [done|by intros [= <-]|done| |lia].
  intros lo n Hlo Hhi Hn. unfold slice_string.
  rewrite bool_decide_eq_true_2; [done|lia].
Qed.

Lemma parse_slice_in_bounds_witness :
  parseTLSClientHello emptyServerName = Panic "index out of range".
Proof.
  assert (∃ msg, parseTLSClientHello emptyServerName = Panic msg) as [msg Hmsg]
    by (eexists; vm_compute; reflexivity).
  rewrite Hmsg. f_equal. exact (parse_slice_in_bounds emptyServerName msg Hmsg).
Defined.


(** *** Bytes after the ClientHello *)

Lemma at_app_l (data extra : list ascii) (z v : Z) :
  at_ data z = Ret v → at_ (data ++ extra) z = Ret v.
Proof.
  unfold at_. case_bool_decide; [|done].
  destruct (data !! Z.to_nat z) as [b|] eqn:Hb; [|done].
  intros [= <-]. by rewrite (lookup_app_l_Some _ _ _ _ Hb).
Qed.

Lemma slice_string_app_l (data extra : list ascii) (lo hi : Z) (s : string) :
  slice_string data lo hi = Ret s → slice_string (data ++ extra) lo hi = Ret s.
Proof.
  unfold slice_string. case_bool_decide as Hb; [|done]. intros [= <-].
  destruct Hb as (? & ? & Hhi). pose proof (len_nonneg extra).
  rewrite bool_decide_eq_true_2 by (rewrite len_app; lia).
  do 2 f_equal. unfold len in Hhi.
  rewrite drop_app_le by lia. rewrite take_app_le; [done|].
  rewrite length_drop. lia.
Qed.

(** Step over a read in the run on [data] (hypothesis [H]) and in the run
    on [data ++ extra] (the goal). *)
Ltac step_at H extra :=
  match type of H with
  | bind (at_ ?d ?z) _ = _ =>
      let v := fresh "v" in
      let Hv := fresh "Hv" in
      let Hr := fresh "Hr" in
      let Hz := fresh "Hz" in
      destruct (at_result d z) as [(v & Hv & Hr & Hz)|Hv];
      [ rewrite Hv in H; rewrite (at_app_l d extra z v Hv); cbn [bind] in H |- *
      | rewrite Hv in H; discriminate H ]
  end.

(** Step over a conditional in both runs. *)
Ltac step_if H :=
  match type of H with
  | (if bool_decide ?P then _ else _) = _ =>
      destruct (decide P);
      [ rewrite (bool_decide_eq_true_2 P) in H by done
      | rewrite (bool_decide_eq_false_2 P) in H by done ];
      try discriminate H;
      match goal with
      | |- (if bool_decide ?Q then _ else _) = _ =>
          first [ rewrite (bool_decide_eq_true_2 Q) by first [done | rewrite ?len_app; lia]
                | rewrite (bool_decide_eq_false_2 Q) by first [done | rewrite ?len_app; lia] ]
      end
  end.

Lemma walkExtensions_app_l (data extra : list ascii) (end_ : Z) (name : string)
    (fuel : nat) :
  ∀ (fuel' : nat) offset, (fuel ≤ fuel')%nat →
    walkExtensions fuel data offset end_ = Ret name →
    walkExtensions fuel' (data ++ extra) offset end_ = Ret name.
Proof.
  induction fuel as [|fuel IH]; intros fuel' offset Hle H; [done|].
  destruct fuel' as [|fuel']; [lia|]. cbn [walkExtensions] in H |- *.
  step_if H. do 4 step_at H extra. cbn zeta in H |- *.
  step_if H. step_if H.
  - do 2 step_at H extra. cbn zeta in H |- *. step_if H.
    by apply slice_string_app_l.
  - apply IH; [lia|done].
Qed.

(** X10.  Bytes that follow do not change a successful parse: when the
    parser returns a host name on an input, it returns the same host name
    on that input followed by any further bytes. *)
Theorem parse_stable_under_append (data extra : list ascii) (name : string) :
  parseTLSClientHello data = Ret name →
  parseTLSClientHello (data ++ extra) = Ret name.
Proof.
  intros H. unfold parseTLSClientHello in H |- *. pose proof (len_nonneg extra).
  step_if H. step_at H extra. step_if H. step_at H extra. step_if H.
  step_at H extra. step_if H. do 2 step_at H extra. cbn zeta in H |- *.
  step_if H. step_at H extra. step_if H. cbn zeta in H |- *. step_if H.
  step_at H extra. cbn zeta in H |- *. step_if H.
  do 2 step_at H extra. cbn zeta in H |- *. step_if H.
  step_at H extra. cbn zeta in H |- *. step_if H.
  do 2 step_at H extra. cbn zeta in H |- *. step_if H.
  apply (walkExtensions_app_l data extra _ name (length data)); [|done].
  rewrite List.length_app. lia.
Qed.

Lemma parse_stable_under_append_witness :
  parseTLSClientHello (capturedBytes ++ replicate 83 (byte 0))
  = Ret "example.ulfheim.net".
Proof.
  apply parse_stable_under_append. vm_compute. reflexivity.
Defined.


(** *** The header checks *)

(** X11.  The checks of the record header come in one order and end in an
    error, never in a panic: an input shorter than 5 bytes is too short;
    otherwise a first byte other than 22 is not a handshake; otherwise a
    version other than 3.1, 3.2 or 3.3 is unsupported; otherwise a record
    length beyond the bytes that follow the header is an incomplete record;
    otherwise a sixth byte other than 1 is not a ClientHello. *)
Theorem parse_header_errors (b0 b1 b2 b3 b4 : ascii) (rest : list ascii) :
  (∀ data, len data < 5 →
     parseTLSClientHello data = Fail "data too short for TLS handshake")
  ∧ (int b0 ≠ 22 →
     parseTLSClientHello (b0 :: b1 :: b2 :: b3 :: b4 :: rest)
     = Fail "not a TLS handshake")
  ∧ (int b0 = 22 → int b1 ≠ 3 ∨ (int b2 ≠ 1 ∧ int b2 ≠ 2 ∧ int b2 ≠ 3) →
     parseTLSClientHello (b0 :: b1 :: b2 :: b3 :: b4 :: rest)
     = Fail "unsupported TLS version")
  ∧ (int b0 = 22 → int b1 = 3 → int b2 = 1 ∨ int b2 = 2 ∨ int b2 = 3 →
     len rest < be16 (int b3) (int b4) →
     parseTLSClientHello (b0 :: b1 :: b2 :: b3 :: b4 :: rest)
     = Fail "incomplete handshake record")
  ∧ (∀ b5 rest', int b0 = 22 → int b1 = 3 → int b2 = 1 ∨ int b2 = 2 ∨ int b2 = 3 →
       rest = b5 :: rest' → be16 (int b3) (int b4) ≤ len rest → int b5 ≠ 1 →
       parseTLSClientHello (b0 :: b1 :: b2 :: b3 :: b4 :: rest)
       = Fail "not a ClientHello message").
Proof.
  assert (∀ l : list ascii, ¬ len (b0 :: b1 :: b2 :: b3 :: b4 :: l) < 5) as Hlen.
  { intros l. rewrite !len_cons. pose proof (len_nonneg l). lia. }
  assert (∀ l : list ascii, len (b0 :: b1 :: b2 :: b3 :: b4 :: l) - 5 = len l) as Hrest.
  { intros l. rewrite !len_cons. lia. }
  split; [|split; [|split; [|split]]].
  - intros data Hshort. unfold parseTLSClientHello.
    by rewrite bool_decide_eq_true_2.
  - intros H0. unfold parseTLSClientHello.
    rewrite (bool_decide_eq_false_2 _ (Hlen rest)).
    read (at_lookup _ 0%nat b0). by rewrite bool_decide_eq_true_2.
  - intros H0 Hver. unfold parseTLSClientHello.
    rewrite (bool_decide_eq_false_2 _ (Hlen rest)).
    read (at_lookup _ 0%nat b0). rewrite bool_decide_eq_false_2 by lia.
    read (at_lookup _ 1%nat b1).
    destruct (decide (int b1 = 3)) as [H1|H1].
    + rewrite bool_decide_eq_false_2 by lia.
      read (at_lookup _ 2%nat b2). rewrite bool_decide_eq_true_2; [done|lia].
    + by rewrite bool_decide_eq_true_2.
  - intros H0 H1 H2 Hrec. unfold parseTLSClientHello.
    rewrite (bool_decide_eq_false_2 _ (Hlen rest)).
    read (at_lookup _ 0%nat b0). rewrite bool_decide_eq_false_2 by lia.
    read (at_lookup _ 1%nat b1). rewrite bool_decide_eq_false_2 by lia.
    read (at_lookup _ 2%nat b2). rewrite bool_decide_eq_false_2 by lia.
    read (at_lookup _ 3%nat b3). read (at_lookup _ 4%nat b4).
    cbn zeta. rewrite Hrest. by rewrite bool_decide_eq_true_2.
  - intros b5 rest' H0 H1 H2 -> Hrec H5. unfold parseTLSClientHello.
    rewrite (bool_decide_eq_false_2 _ (Hlen _)).
    read (at_lookup _ 0%nat b0). rewrite bool_decide_eq_false_2 by lia.
    read (at_lookup _ 1%nat b1). rewrite bool_decide_eq_false_2 by lia.
    read (at_lookup _ 2%nat b2). rewrite bool_decide_eq_false_2 by lia.
    read (at_lookup _ 3%nat b3). read (at_lookup _ 4%nat b4).
    cbn zeta. rewrite Hrest. rewrite bool_decide_eq_false_2 by lia.
    read (at_lookup _ 5%nat b5). by rewrite bool_decide_eq_true_2.
Qed.

Lemma parse_header_errors_witness :
  parseTLSClientHello (byte <$> [21; 3; 1; 0; 2; 1; 0]) = Fail "not a TLS handshake"
  ∧ parseTLSClientHello (byte <$> [22; 3; 4; 0; 2; 1; 0]) = Fail "unsupported TLS version"
  ∧ parseTLSClientHello (byte <$> [22; 3; 3; 0; 9; 1; 0]) = Fail "incomplete handshake record"
  ∧ parseTLSClientHello (byte <$> [22; 3; 3; 0; 2; 2; 0]) = Fail "not a ClientHello message".
Proof.
  pose proof (parse_header_errors (byte 21) (byte 3) (byte 1) (byte 0) (byte 2)
                (byte <$> [1; 0])) as (_ & Hrecord & _).
  pose proof (parse_header_errors (byte 22) (byte 3) (byte 4) (byte 0) (byte 2)
                (byte <$> [1; 0])) as (_ & _ & Hversion & _).
  pose proof (parse_header_errors (byte 22) (byte 3) (byte 3) (byte 0) (byte 9)
                (byte <$> [1; 0])) as (_ & _ & _ & Hshort & _).
  pose proof (parse_header_errors (byte 22) (byte 3) (byte 3) (byte 0) (byte 2)
                (byte <$> [2; 0])) as (_ & _ & _ & _ & Hhello).
  split; [|split; [|split]].
  - apply Hrecord. vm_compute. discriminate.
  - apply Hversion; [reflexivity|].
    right. vm_compute. repeat split; discriminate.
  - apply Hshort; [reflexivity|reflexivity| |vm_compute; reflexivity].
    right. right. reflexivity.
  - apply (Hhello (byte 2) [byte 0]);
      [reflexivity|reflexivity| |reflexivity|vm_compute; discriminate|vm_compute; discriminate].
    right. right. reflexivity.
Defined.

(** *** [extractSNI] *)






End SNIMore.

(** ** The L4 proxy: connections *)

(** X13.  [handleConnection] dials only a backend that is in the pool of
    the server name it parsed; when it closes the connection without a dial
    (no server name, or no backend for it) the configuration is unchanged;
    and it never changes a pool or the cache. *)
Theorem handleConnection_dials_registered
    (dial : Dialer) (rng : RangeOrder) (config : Config) (conn : ClientConn) :
  range_valid rng →
  let out := (L4Proxy.handleConnection dial rng config conn).1 in
  let config' := (L4Proxy.handleConnection dial rng config conn).2 in
  (∀ backendAddr,
     out = ConnForwarded backendAddr ∨ (∃ log, out = ConnDialFailed backendAddr log) →
     ∃ name, extractSNI conn = Ret name ∧ in_pool config name backendAddr)
  ∧ (∀ log, out = ConnClosed log → config' = config)
  ∧ (∀ name, extractSNI conn = Ret name →
       Backends config !! name = None ∨ Backends config !! name = Some ∅ →
       out = ConnClosed ("No backend found for SNI: " +:+ name))
  ∧ Backends config' = Backends config
  ∧ Cache config' = Cache config.
Proof.
  intros Hv out config'. subst out config'. unfold L4Proxy.handleConnection.
  destruct (extractSNI conn) as [sni|e|msg|] eqn:Hsni; cbn [parseSNI].
  2-4: (split; [by intros a [[=]|[log [=]]]|]; split; [done|]; split; [|done];
        by intros name [=]).
  unfold L4.getNextBackend.
  destruct (getNextBackendOf_frame "SNI" rng config sni) as (Hbk & Hcache & _).
  destruct (getNextBackendOf "SNI" rng config sni) as [r config1] eqn:Hnext.
  cbn in Hbk, Hcache.
  assert (Backends config !! sni = None ∨ Backends config !! sni = Some ∅ →
          r = Fail ("no backends available for SNI: " +:+ sni) ∧ config1 = config)
    as Hnone.
  { intros Hno. rewrite (getNextBackendOf_no_backend _ _ _ _ Hv Hno) in Hnext.
    by simplify_eq. }
  destruct r as [backendAddr|e|msg|].
  - pose proof (getNextBackend_pool "SNI" rng config config1 sni backendAddr Hv Hnext)
      as Hin.
    unfold forwardTraffic. destruct (dial backendAddr); cbn.
    + split; [|split; [done|split; [|done]]].
      * intros a [[=]|[log [= <- _]]]. eauto.
      * intros name [= <-] Hno. by destruct (Hnone Hno).
    + split; [|split; [done|split; [|done]]].
      * intros a [[= <-]|[log [=]]]. eauto.
      * intros name [= <-] Hno. by destruct (Hnone Hno).
  - cbn. split; [by intros a [[=]|[log [=]]]|]. split.
    + intros log _. by eapply getNextBackendOf_Fail_config.
    + split; [|done]. by intros name [= <-] _.
  - cbn. split; [by intros a [[=]|[log [=]]]|]. split; [done|]. split; [|done].
    intros name [= <-] Hno. by destruct (Hnone Hno).
  - cbn. split; [by intros a [[=]|[log [=]]]|]. split; [done|]. split; [|done].
    intros name [= <-] Hno. by destruct (Hnone Hno).
Qed.

Lemma handleConnection_dials_registered_witness :
  (L4Proxy.handleConnection dialOk range_trie svcConfig demoConn).1
  = ConnForwarded "127.0.0.1:9001"
  ∧ in_pool svcConfig "svc.test" "127.0.0.1:9001"
  ∧ (L4Proxy.handleConnection dialOk range_trie emptyConfig demoConn).1
    = ConnClosed "No backend found for SNI: svc.test".
Proof.
  pose proof (handleConnection_dials_registered dialOk range_trie svcConfig demoConn
                range_trie_valid) as (Hdial & _).
  pose proof (handleConnection_dials_registered dialOk range_trie emptyConfig demoConn
                range_trie_valid) as (_ & _ & Hnone & _).
  assert ((L4Proxy.handleConnection dialOk range_trie svcConfig demoConn).1
          = ConnForwarded "127.0.0.1:9001") as Hout by (vm_compute; reflexivity).
  split; [exact Hout|]. split.
  - destruct (Hdial "127.0.0.1:9001" (or_introl Hout)) as (name & Hname & Hin).
    assert (name = "svc.test") as ->; [|exact Hin].
    assert (extractSNI demoConn = Ret "svc.test") as Hsni by (vm_compute; reflexivity).
    rewrite Hsni in Hname. by injection Hname.
  - apply Hnone; [vm_compute; reflexivity|by left].
Defined.



(** X15.  With TLS termination the cache key is the server name alone: once
    a connection for a server name has been forwarded and the bytes of the
    backend recorded, be they empty, the next connection with that server
    name is answered with the recorded bytes; no backend is selected, none
    is dialed, and the configuration stays as it is. *)
Theorem tls_termination_cache_is_sticky
    (dial dial' : Dialer) (rng rng' : RangeOrder) (config config1 : Config)
    (conn conn' : L4Proxy.TLSConn) (backendAddr response : string) :
  L4Proxy.handleTLSTerminationConnection dial rng config conn
  = (L4Proxy.TLSForwarded backendAddr response, config1) →
  L4Proxy.LoadX509KeyPair conn' = None →
  L4Proxy.Handshake conn' = None →
  L4Proxy.ServerName conn' = L4Proxy.ServerName conn →
  L4Proxy.handleTLSTerminationConnection dial' rng' config1 conn'
  = (L4Proxy.TLSCached response, config1).
Proof.
  intros Hfirst Hcert Hhs Hname.
  unfold L4Proxy.handleTLSTerminationConnection in *. rewrite Hcert, Hhs, Hname.
  destruct (L4Proxy.LoadX509KeyPair conn); [done|].
  destruct (L4Proxy.Handshake conn); [done|].
  destruct (getFromCache config _) eqn:Hmiss; [done|].
  destruct (L4.getNextBackend rng config _) as [[b|e|msg|] config2]; [|done..].
  destruct (dial b); [done|]. injection Hfirst as <- <- <-.
  unfold getFromCache, storeInCache. cbn. by rewrite lookup_insert_eq.
Qed.

Lemma tls_termination_cache_is_sticky_witness :
  ∃ config1,
    L4Proxy.handleTLSTerminationConnection dialOk range_trie svcConfig demoTLSConn
    = (L4Proxy.TLSForwarded "127.0.0.1:9001" "hello", config1)
    ∧ L4Proxy.handleTLSTerminationConnection dialDown range_trie_rev config1
        (L4Proxy.mkTLSConn None None "svc.test" "other")
      = (L4Proxy.TLSCached "hello", config1).
Proof.
  eexists. split; [vm_compute; reflexivity|].
  eapply (tls_termination_cache_is_sticky dialOk dialDown range_trie range_trie_rev
            svcConfig _ demoTLSConn); [vm_compute; reflexivity|reflexivity..].
Defined.

(** X22.  With TLS termination nothing is recorded unless a backend was
    dialed: when the key pair does not load or the handshake fails the
    connection is closed and the configuration is unchanged; in every run
    that does not end in forwarding the cache stays as it is; and no run
    changes a pool. *)
Theorem tls_termination_records_only_forwarded
    (dial : Dialer) (rng : RangeOrder) (config : Config) (conn : L4Proxy.TLSConn) :
  let out := (L4Proxy.handleTLSTerminationConnection dial rng config conn).1 in
  let config' := (L4Proxy.handleTLSTerminationConnection dial rng config conn).2 in
  (L4Proxy.LoadX509KeyPair conn ≠ None ∨ L4Proxy.Handshake conn ≠ None →
   (∃ log, out = L4Proxy.TLSClosed log) ∧ config' = config)
  ∧ ((∀ backendAddr response, out ≠ L4Proxy.TLSForwarded backendAddr response) →
     Cache config' = Cache config)
  ∧ Backends config' = Backends config.
Proof.
  intros out config'. subst out config'.
  unfold L4Proxy.handleTLSTerminationConnection.
  destruct (L4Proxy.LoadX509KeyPair conn) as [e|]; cbn.
  { split; [eauto|done]. }
  destruct (L4Proxy.Handshake conn) as [e|]; cbn.
  { split; [eauto|done]. }
  split; [by intros [|]|].
  destruct (getFromCache config _); [done|].
  unfold L4.getNextBackend.
  destruct (getNextBackendOf_frame "SNI" rng config (L4Proxy.ServerName conn))
    as (Hbk & Hcache & _).
  destruct (getNextBackendOf "SNI" rng config (L4Proxy.ServerName conn))
    as [[b|e|msg|] config1]; cbn in Hbk, Hcache; cbn; try done.
  destruct (dial b); cbn; [done|]. split; [|done].
  intros Hnot. by destruct (Hnot b (L4Proxy.backendBytes conn)).
Qed.

Lemma tls_termination_records_only_forwarded_witness :
  (∃ log, (L4Proxy.handleTLSTerminationConnection dialOk range_trie svcConfig
             (L4Proxy.mkTLSConn None (Some "bad certificate") "svc.test" "")).1
          = L4Proxy.TLSClosed log)
  ∧ Cache (L4Proxy.handleTLSTerminationConnection dialDown range_trie svcConfig
             demoTLSConn).2
    = Cache svcConfig.
Proof.
  pose proof (tls_termination_records_only_forwarded dialOk range_trie svcConfig
                (L4Proxy.mkTLSConn None (Some "bad certificate") "svc.test" ""))
    as (Hclosed & _).
  pose proof (tls_termination_records_only_forwarded dialDown range_trie svcConfig
                demoTLSConn) as (_ & Hcache & _).
  split.
  - apply Hclosed. right. discriminate.
  - apply Hcache. intros b response. vm_compute. discriminate.
Defined.

(** ** The first version of the L4 proxy *)



(** ** The L7 proxy: sequences of requests *)

(** One proxied request, from a configuration whose cursors are in range:
    the handler replies, or panics in [WriteHeader] on the status of the
    upstream response; it keeps the cursors in range. *)
Lemma handleHTTPRequest_step env rng config r :
  range_valid rng → cursor_in_range config →
  ((∃ reply, (handleHTTPRequest env rng config r).1.1 = Replied reply)
   ∨ WriteHeader_panic env (handleHTTPRequest env rng config r).1.1)
  ∧ (upstream_statuses_valid env →
     ∃ reply, (handleHTTPRequest env rng config r).1.1 = Replied reply)
  ∧ cursor_in_range (handleHTTPRequest env rng config r).1.2.
Proof.
  intros Hv Hinv. unfold handleHTTPRequest.
  destruct (getFromCache config (cacheKey env r)); [by eauto 6|].
  unfold L7.getNextBackend.
  destruct (cursor_in_range_getNextBackendOf "host" rng config (Host r) Hv Hinv)
    as [Hinv' Hnp].
  destruct (getNextBackendOf "host" rng config (Host r)) as [[b|e|msg|] config'] eqn:Hn;
    cbn in Hinv', Hnp.
  - destruct (NewRequest_fails env _ _); [by eauto 6|].
    destruct (Do env _) as [e|code hdr [body|e]] eqn:Hdo; cbn; [by eauto 6| |by eauto 6].
    destruct (decide (code < 100 ∨ 999 < code)%Z) as [Hbad|Hgood].
    + rewrite (writeResponse_Panicked _ _ _ Hbad). split; [|split; [|done]].
      * right. by eexists _, code, hdr, body.
      * intros Hvalid. specialize (Hvalid _ _ _ _ Hdo). lia.
    + rewrite writeResponse_Replied by lia. eauto 6.
  - eauto 6.
  - by destruct (Hnp msg).
  - exfalso. unfold getNextBackendOf in Hn.
    destruct (Backends config !! Host r) as [pool|]; [|done].
    cbn zeta in Hn. case_bool_decide; [done|].
    destruct (index_slice_Ret_or_Panic (rng pool)
                (default 0%Z (BackendIndices config !! Host r))) as [[b Hb]|Hb];
      rewrite Hb in Hn; done.
Qed.

Lemma handleHTTPRequest_cache_kept env rng config r key v :
  getFromCache config key = Some v →
  getFromCache (handleHTTPRequest env rng config r).1.2 key = Some v.
Proof.
  intros Hkey. unfold handleHTTPRequest.
  destruct (getFromCache config (cacheKey env r)) eqn:Hmiss; [done|].
  unfold L7.getNextBackend.
  destruct (getNextBackendOf_frame "host" rng config (Host r)) as (_ & Hcache & _).
  destruct (getNextBackendOf "host" rng config (Host r)) as [[b|e|msg|] config'];
    cbn in Hcache; unfold getFromCache in *; cbn; rewrite ?Hcache; try done.
  destruct (NewRequest_fails env _ _); cbn; rewrite ?Hcache; [done|].
  destruct (Do env _) as [e|code hdr [body|e]]; cbn; rewrite ?Hcache; try done.
  rewrite lookup_insert_ne; [done|]. intros <-. by rewrite Hkey in Hmiss.
Qed.

Lemma registerBackendHandler_step decode config method body :
  (cursor_in_range config →
   cursor_in_range (registerBackendHandler decode config method body).2)
  ∧ Cache (registerBackendHandler decode config method body).2 = Cache config.
Proof.
  unfold registerBackendHandler. case_bool_decide; [done|].
  destruct (decode body); [|done]. case_bool_decide; [done|].
  split; [apply cursor_in_range_addBackend|done].
Qed.

Lemma runL7_cache_kept decode env ops :
  ∀ config key v,
    getFromCache config key = Some v →
    getFromCache (runL7 decode env ops config).2 key = Some v.
Proof.
  induction ops as [|[method body|rng r] ops IH]; intros config key v Hkey; [done|..].
  - cbn [runL7].
    destruct (registerBackendHandler_step decode config method body) as [_ Hc].
    destruct (registerBackendHandler decode config method body) as [reply config'].
    specialize (IH config' key v). destruct (runL7 decode env ops config').
    cbn in *. apply IH. unfold getFromCache in *. by rewrite Hc.
  - cbn [runL7].
    pose proof (handleHTTPRequest_cache_kept env rng config r key v Hkey) as Hk.
    destruct (handleHTTPRequest env rng config r) as [[out config'] tr].
    specialize (IH config' key v). destruct (runL7 decode env ops config').
    cbn in *. by apply IH.
Qed.

(** X17.  The L7 proxy, which has no removal, never reads a cursor out of
    range: starting from the empty configuration, whatever registrations
    and proxied requests are served one after the other, the cursors stay
    in range and [getNextBackend] never panics.  A request gets a reply, or
    ends in the one panic the handler has left, that of [WriteHeader] on an
    upstream status outside 100..999; when every upstream status lies in
    100..999, every request gets a reply. *)
Theorem l7_sequences_panic_only_in_WriteHeader
    (decode : Decoder) (env : Env) (ops : list L7Op) :
  Forall l7_rng_valid ops →
  Forall (λ out, (∃ reply, out = Replied reply) ∨ WriteHeader_panic env out)
    (runL7 decode env ops emptyConfig).1
  ∧ (upstream_statuses_valid env →
     Forall (λ out, ∃ reply, out = Replied reply) (runL7 decode env ops emptyConfig).1)
  ∧ cursor_in_range (runL7 decode env ops emptyConfig).2.
Proof.
  intros Hops. generalize cursor_in_range_empty. generalize emptyConfig.
  induction Hops as [|[method body|rng r] ops Hop _ IH]; intros config Hinv;
    [by repeat split|..].
  - cbn [runL7].
    destruct (registerBackendHandler_step decode config method body) as [Hinv' _].
    destruct (registerBackendHandler decode config method body) as [reply config'].
    destruct (IH config' (Hinv' Hinv)) as (Houts & Hvalid & Hfinal).
    destruct (runL7 decode env ops config'). cbn in *.
    split; [|split; [|done]].
    + constructor; [by eauto|done].
    + intros Hv. constructor; [by eauto|by apply Hvalid].
  - cbn [runL7]. cbn in Hop.
    destruct (handleHTTPRequest_step env rng config r Hop Hinv)
      as (Hout & Hreply & Hinv').
    destruct (handleHTTPRequest env rng config r) as [[out config'] tr].
    destruct (IH config' Hinv') as (Houts & Hvalid & Hfinal).
    destruct (runL7 decode env ops config'). cbn in *.
    split; [|split; [|done]].
    + by constructor.
    + intros Hv. constructor; [by apply Hreply|by apply Hvalid].
Qed.

Lemma l7_sequences_panic_only_in_WriteHeader_witness :
  (runL7 apiPoolDecoder demoEnv apiSession emptyConfig).1
  = [Replied (mkReply 200 ∅
        "Backend http://127.0.0.1:9100 registered successfully for host api.test");
     Replied (mkReply 200 ∅ "v1");
     Replied (mkReply 200 ∅
        "Backend http://127.0.0.1:9101 registered successfully for host api.test");
     Replied (mkReply 200 ∅ "v1");
     Replied (mkReply 200 ∅ "v1");
     Replied (mkReply 200 ∅ "v1")]
  ∧ BackendIndices (runL7 apiPoolDecoder demoEnv apiSession emptyConfig).2
    !! "api.test" = Some 0%Z
  ∧ Forall (λ out, ∃ reply, out = Replied reply)
      (runL7 apiPoolDecoder demoEnv apiSession emptyConfig).1
  ∧ Forall (λ out, (∃ reply, out = Replied reply) ∨ WriteHeader_panic badStatusEnv out)
      (runL7 apiPoolDecoder badStatusEnv apiSession emptyConfig).1
  ∧ cursor_in_range (runL7 apiPoolDecoder badStatusEnv apiSession emptyConfig).2.
Proof.
  assert (Forall l7_rng_valid apiSession) as Hops.
  { unfold apiSession.
    apply List.Forall_cons; [exact I|].
    apply List.Forall_cons; [exact range_trie_valid|].
    apply List.Forall_cons; [exact I|].
    apply List.Forall_cons; [exact range_trie_valid|].
    apply List.Forall_cons; [exact range_trie_rev_valid|].
    apply List.Forall_cons; [exact range_trie_valid|].
    apply List.Forall_nil. }
  split; [vm_compute; reflexivity|]. split; [vm_compute; reflexivity|].
  destruct (l7_sequences_panic_only_in_WriteHeader apiPoolDecoder demoEnv
              apiSession Hops) as (_ & Hvalid & _).
  destruct (l7_sequences_panic_only_in_WriteHeader apiPoolDecoder badStatusEnv
              apiSession Hops) as (Houts & _ & Hfinal).
  split; [|split; [exact Houts|exact Hfinal]].
  apply Hvalid. intros req code hdr body Hdo. cbn in Hdo.
  injection Hdo as <- _ _. lia.
Defined.

(** X18.  A recorded response is never replaced or dropped: once the cache
    holds a response for the key of a request, that request is answered
    with status 200 and the same body after any sequence of registrations
    and proxied requests, with no backend selection and no upstream
    request. *)
Theorem l7_cached_response_served_forever
    (decode : Decoder) (env : Env) (ops : list L7Op) (rng : RangeOrder)
    (config : Config) (r : Request) (cachedResponse : string) :
  getFromCache config (cacheKey env r) = Some cachedResponse →
  handleHTTPRequest env rng (runL7 decode env ops config).2 r
  = (Replied (mkReply StatusOK ∅ cachedResponse),
     (runL7 decode env ops config).2, []).
Proof.
  intros Hkey. unfold handleHTTPRequest.
  by rewrite (runL7_cache_kept decode env ops config _ _ Hkey).
Qed.

Lemma l7_cached_response_served_forever_witness :
  handleHTTPRequest demoEnv range_trie
    (runL7 apiPoolDecoder demoEnv
       [L7Request range_trie getXQuery; L7Register "POST" apiTestBody2]
       (storeInCache demoConfig "api.test:/x" "v0")).2
    getX
  = (Replied (mkReply StatusOK ∅ "v0"),
     (runL7 apiPoolDecoder demoEnv
        [L7Request range_trie getXQuery; L7Register "POST" apiTestBody2]
        (storeInCache demoConfig "api.test:/x" "v0")).2, []).
Proof.
  apply (l7_cached_response_served_forever apiPoolDecoder demoEnv).
  vm_compute. reflexivity.
Defined.

(** X19.  The handler writes the cache only when it has read the whole body
    of an upstream response, and then it adds that body under the key of
    the request and hands the response to the writer: the replies it
    generates itself (503, 502, 500) are not recorded. *)
Theorem handleHTTPRequest_cache_write
    (env : Env) (rng : RangeOrder) (config : Config) (r : Request) :
  Cache (handleHTTPRequest env rng config r).1.2 ≠ Cache config →
  ∃ code hdr body req,
    Do env req = DoResp code hdr (ReadOk body)
    ∧ (handleHTTPRequest env rng config r).2 = [EvNext (Host r); EvDo req]
    ∧ (handleHTTPRequest env rng config r).1.1
      = writeResponse code (copyHeader hdr) body
    ∧ Cache (handleHTTPRequest env rng config r).1.2
      = <[cacheKey env r := body]> (Cache config).
Proof.
  unfold handleHTTPRequest.
  destruct (getFromCache config (cacheKey env r)); [done|].
  unfold L7.getNextBackend.
  destruct (getNextBackendOf_frame "host" rng config (Host r)) as (_ & Hcache & _).
  destruct (getNextBackendOf "host" rng config (Host r)) as [[b|e|msg|] config'];
    cbn in Hcache; cbn; rewrite ?Hcache; try done.
  destruct (NewRequest_fails env _ _); cbn; rewrite ?Hcache; [done|].
  destruct (Do env _) as [e|code hdr [body|e]] eqn:Hdo; cbn; rewrite ?Hcache; try done.
  intros _. eauto 10.
Qed.

Lemma handleHTTPRequest_cache_write_witness :
  ∃ code hdr body req,
    Do demoEnv req = DoResp code hdr (ReadOk body)
    ∧ Cache (handleHTTPRequest demoEnv range_trie demoConfig getX).1.2
      = <[cacheKey demoEnv getX := body]> (Cache demoConfig).
Proof.
  destruct (handleHTTPRequest_cache_write demoEnv range_trie demoConfig getX)
    as (code & hdr & body & req & Hdo & _ & _ & Hcache).
  - intros E. apply (f_equal (λ m : gmap string string, m !! "api.test:/x")) in E.
    vm_compute in E. discriminate.
  - exists code, hdr, body, req. split; [exact Hdo|exact Hcache].
Defined.

(** X20.  The handler of the stress-test build neither reads nor writes the
    cache: its outcome and its upstream request are the same for two
    configurations that differ in the cache only, and it leaves the cache
    as it is. *)
Theorem stress_handler_ignores_cache
    (env : Env) (rng : RangeOrder) (config1 config2 : Config) (r : Request) :
  Backends config1 = Backends config2 →
  BackendIndices config1 = BackendIndices config2 →
  (StressL7.handleHTTPRequest env rng config1 r).1.1
  = (StressL7.handleHTTPRequest env rng config2 r).1.1
  ∧ (StressL7.handleHTTPRequest env rng config1 r).2
    = (StressL7.handleHTTPRequest env rng config2 r).2
  ∧ Cache (StressL7.handleHTTPRequest env rng config1 r).1.2 = Cache config1.
Proof.
  intros Hb Hi. unfold StressL7.handleHTTPRequest, L7.getNextBackend.
  pose proof (getNextBackendOf_local "host" rng config1 config2 (Host r)
                (f_equal (.!! Host r) Hb) (f_equal (.!! Host r) Hi)) as Hsame.
  destruct (getNextBackendOf_frame "host" rng config1 (Host r)) as (_ & Hc1 & _).
  destruct (getNextBackendOf "host" rng config1 (Host r)) as [r1 c1].
  destruct (getNextBackendOf "host" rng config2 (Host r)) as [r2 c2].
  cbn in Hsame, Hc1. subst r2.
  destruct r1 as [b|e|msg|]; cbn; try done.
  destruct (NewRequest_fails env _ _); [done|].
  by destruct (Do env _) as [e|code hdr [body|e]].
Qed.

Lemma stress_handler_ignores_cache_witness :
  (StressL7.handleHTTPRequest demoEnv range_trie
     (storeInCache demoConfig "api.test:/x" "v0") getX).1.1
  = (StressL7.handleHTTPRequest demoEnv range_trie demoConfig getX).1.1.
Proof.
  destruct (stress_handler_ignores_cache demoEnv range_trie
              (storeInCache demoConfig "api.test:/x" "v0") demoConfig getX)
    as (Hout & _); [reflexivity|reflexivity|exact Hout].
Defined.

(** X21.  Registration and request together: after a well-formed
    [POST /register-backend] of a host that had no pool, with cursors in
    range, a request for that host that is not in the cache is sent to the
    registered backend, at the backend URL followed by the path of the
    request, and the body of the upstream response is recorded.  When the
    upstream status lies in 100..999 the handler hands that status, the
    upstream headers and the body to the writer; on any other status it
    panics in [WriteHeader], after the upstream request and the recording. *)
Theorem l7_register_then_request
    (decode : Decoder) (env : Env) (rng : RangeOrder) (config : Config)
    (body : string) (registration : Registration) (r : Request)
    (code : Z) (hdr : Header) (upstreamBody : string) :
  range_valid rng →
  cursor_in_range config →
  Backends config !! reg_selector registration = None →
  decode body = Some registration →
  reg_selector registration ≠ "" → reg_backend registration ≠ "" →
  Host r = reg_selector registration →
  getFromCache config (cacheKey env r) = None →
  let req := mkUpstreamRequest (Method r)
               (reg_backend registration +:+ Path (ReqURL r)) (ReqHeader r) (Body r) in
  NewRequest_fails env (Method r) (reg_backend registration +:+ Path (ReqURL r)) = false →
  Do env req = DoResp code hdr (ReadOk upstreamBody) →
  let config1 := (registerBackendHandler decode config "POST" body).2 in
  ((100 ≤ code ≤ 999)%Z →
   (handleHTTPRequest env rng config1 r).1.1
   = Replied (mkReply code (copyHeader hdr) upstreamBody))
  ∧ ((code < 100 ∨ 999 < code)%Z →
     (handleHTTPRequest env rng config1 r).1.1
     = Panicked ("invalid WriteHeader code " +:+ pretty code))
  ∧ (handleHTTPRequest env rng config1 r).2 = [EvNext (Host r); EvDo req]
  ∧ getFromCache (handleHTTPRequest env rng config1 r).1.2 (cacheKey env r)
    = Some upstreamBody.
Proof.
  intros Hv Hinv Hfresh Hdec Hsel Hbk Hhost Hmiss req Hnew Hdo config1.
  subst config1. unfold registerBackendHandler, MethodPost.
  rewrite bool_decide_eq_false_2 by (by intros []).
  rewrite Hdec, bool_decide_eq_false_2 by tauto. cbn [snd].
  set (config1 := addBackend config _ _).
  assert (Backends config1 !! Host r = Some {[reg_backend registration := true]})
    as Hpool.
  { unfold config1, addBackend. cbn. by rewrite Hhost, lookup_insert_eq, Hfresh. }
  assert (cursorOf config1 (Host r) = Z.of_nat 0) as Hcur.
  { unfold cursorOf, config1. cbn. rewrite Hhost.
    destruct (BackendIndices config !! reg_selector registration) as [c|] eqn:Hc;
      [|done].
    destruct (Hinv _ _ Hc) as (pool & Hpool' & _). by rewrite Hfresh in Hpool'. }
  destruct (getNextBackendOf_in_range "host" rng config1 _ _ 0
              (reg_backend registration) Hpool Hcur)
    as (config2 & Hnext & _); [by rewrite (range_singleton _ _ _ Hv)|].
  destruct (handleHTTPRequest_forward env rng config1 r (reg_backend registration)
              config2) as [Htrace Hout]; [done..|].
  fold req in Htrace, Hout. rewrite Hdo in Hout.
  destruct (handleHTTPRequest env rng config1 r) as [[out config3] trace].
  cbn in Htrace, Hout |- *. injection Hout as -> ->.
  split; [intros Hc; by apply writeResponse_Replied|].
  split; [intros Hc; by apply writeResponse_Panicked|].
  split; [done|].
  unfold getFromCache, storeInCache. cbn. by rewrite lookup_insert_eq.
Qed.

Lemma l7_register_then_request_witness :
  (handleHTTPRequest demoEnv range_trie
     (registerBackendHandler apiDecoder emptyConfig "POST" apiTestBody).2 getX).1.1
  = Replied (mkReply 200 (copyHeader ∅) "v1")
  ∧ (handleHTTPRequest badStatusEnv range_trie
       (registerBackendHandler apiDecoder emptyConfig "POST" apiTestBody).2 getX).1.1
    = Panicked "invalid WriteHeader code 0"
  ∧ (handleHTTPRequest demoEnv range_trie
       (registerBackendHandler apiDecoder emptyConfig "POST" apiTestBody).2 getX).2
    = [EvNext "api.test";
       EvDo (mkUpstreamRequest "GET" "http://127.0.0.1:9100/x" ∅ "")].
Proof.
  destruct (l7_register_then_request apiDecoder demoEnv range_trie emptyConfig
              apiTestBody (mkRegistration "api.test" "http://127.0.0.1:9100") getX
              200 ∅ "v1" range_trie_valid cursor_in_range_empty)
    as (Hok & _ & Htrace & _);
    [reflexivity|reflexivity|discriminate|discriminate|reflexivity|reflexivity
    |reflexivity|reflexivity|].
  destruct (l7_register_then_request apiDecoder badStatusEnv range_trie emptyConfig
              apiTestBody (mkRegistration "api.test" "http://127.0.0.1:9100") getX
              0 ∅ "v1" range_trie_valid cursor_in_range_empty)
    as (_ & Hpanic & _);
    [reflexivity|reflexivity|discriminate|discriminate|reflexivity|reflexivity
    |reflexivity|reflexivity|].
  split; [apply Hok; lia|]. split; [|exact Htrace].
  apply Hpanic. left. lia.
Defined.
